(** * Verification of vegeta's reporters (reporters.go)

    A shallow embedding of [TextReporter] and [GraphicalReporter] and the
    properties of their [Add] and [Report] methods.

    Conventions of the embedding:
    - Go's fixed-width integers are [Z] with the wrap-around written out
      ([u64], [i64]);
    - [float64] is [spec_float] at precision 53 and maximal exponent 1024;
    - a [*Response] is an [option Response], [None] being the nil pointer;
    - a run-time panic is the [Panicked] outcome of [result];
    - [map] values are [gmap]/[gset]; the order in which [range] visits
      them is chosen by the run-time system ([Runtime]). *)

From Stdlib Require Import ZArith SpecFloat.
From stdpp Require Import gmap strings list fin_maps pretty sorting.

Open Scope Z_scope.

(** ** Outcomes: normal return or run-time panic *)

Inductive panic : Type :=
  | NilDereference   (* invalid memory address or nil pointer dereference *)
  | TypeAssertion    (* interface conversion: value is not a *Response *)
  | MakeSliceLen.    (* makeslice: len out of range *)

Inductive result (A : Type) : Type :=
  | Ok (a : A)
  | Panicked (p : panic).
Arguments Ok {A} a.
Arguments Panicked {A} p.

Definition rbind {A B} (x : result A) (k : A -> result B) : result B :=
  match x with
  | Ok a => k a
  | Panicked p => Panicked p
  end.

Definition rmap {A B} (f : A -> B) (x : result A) : result B :=
  rbind x (fun a => Ok (f a)).

#[global] Instance result_ret : MRet result := fun A a => Ok a.
#[global] Instance result_bind : MBind result := fun A B k x => rbind x k.
#[global] Instance result_fmap : FMap result := fun A B f x => rmap f x.

Definition is_Ok {A} (x : result A) : Prop :=
  match x with Ok _ => True | Panicked _ => False end.

(** ** Machine integers *)

Definition u64 (z : Z) : Z := z mod 2 ^ 64.
Definition i64 (z : Z) : Z := (z + 2 ^ 63) mod 2 ^ 64 - 2 ^ 63.

(** ** The event type *)

(** Modelled from the spec: the declaration of [time.Time] belongs to Go's
    library; only [Before] and [After] are used on it, both of which compare
    the instants, so a [Time] is the instant it denotes. *)
Definition Time : Type := Z.
Definition Before (t u : Time) : bool := t <? u.
Definition After (t u : Time) : bool := u <? t.

(** Modelled from the spec: the declaration of [Response] is not part of
    reporters.go.  The fields are the ones the reporters read: [code],
    [bytesOut] and [bytesIn] are [uint64], [timing] is a [time.Duration]
    (an [int64] of nanoseconds), [timestamp] a [time.Time] and [err] an
    [error], kept as the text its [Error()] returns ([None] is nil). *)
Record Response : Type := mkResponse {
  code : Z;
  timestamp : Time;
  timing : Z;
  bytesOut : Z;
  bytesIn : Z;
  err : option string
}.

(** [*Response] *)
Definition ptr : Type := option Response.

Definition deref (p : ptr) : result Response :=
  match p with
  | Some r => Ok r
  | None => Panicked NilDereference
  end.

(** ** io.Writer *)

(** An [error] value: nil or the text of the error. *)
Definition error : Type := option string.

(** [Write(p) (n int, err error)] on a sink whose state has type [W]. *)
Class Writer (W : Type) : Type :=
  Write : W -> string -> W * (Z * error).

(** ** Text produced by fmt *)

Definition nl : string := String (Ascii.ascii_of_nat 10) "".
Definition tab : string := String (Ascii.ascii_of_nat 9) "".

(** [fmt.Sprintln] of one operand already turned into text. *)
Definition Sprintln (s : string) : string := s +:+ nl.

Fixpoint spaces (n : nat) : string :=
  match n with
  | O => ""
  | S n' => " " +:+ spaces n'
  end.

(** The verb [%d], and [%Nd] which pads with spaces on the left. *)
Definition fmt_d (z : Z) : string := pretty z.
Definition fmt_wd (w : nat) (z : Z) : string :=
  let s := fmt_d z in spaces (w - String.length s)%nat +:+ s.

(** ** float64 *)

Definition float64 : Type := spec_float.
Definition float64_of_int (z : Z) : float64 := binary_normalize 53 1024 z 0 false.
Definition float64_div : float64 -> float64 -> float64 := SFdiv 53 1024.

(** ** What the run-time system and Go's library decide

    [range] over a map visits every entry once, in an order of the
    run-time system's choosing; the texts of [%s] on a [time.Duration],
    [%f] on a [float64] and of a [time.Time] come from Go's library; the
    result of converting a [float64] that no [int64] represents is
    implementation-dependent. *)
Record Runtime : Type := mkRuntime {
  Duration_String : Z -> string;
  fmt_f : float64 -> string;
  Time_String : Time -> string;
  int64_indefinite : float64 -> Z;
  range_histogram : gmap Z Z -> list (Z * Z);
  range_histogram_perm : forall m, range_histogram m ≡ₚ map_to_list m;
  range_errors : gset string -> list string;
  range_errors_perm : forall s, range_errors s ≡ₚ elements s
}.

(** [int64(f)]: the fraction is discarded; a value out of range gives an
    implementation-dependent result. *)
Definition int64_of_float64 (rt : Runtime) (f : float64) : Z :=
  match f with
  | S754_zero _ => 0
  | S754_finite s m e =>
      let a := if 0 <=? e then Z.shiftl (Z.pos m) e else Z.shiftr (Z.pos m) (- e) in
      let t := if s then - a else a in
      if (- 2 ^ 63 <=? t) && (t <? 2 ^ 63) then t else int64_indefinite rt f
  | _ => int64_indefinite rt f
  end.

(** ** The state a [Report] call runs in: the reporter and the sink *)

Record World (R W : Type) : Type := mkWorld { rep : R; out : W }.
Arguments mkWorld {R W} rep out.
Arguments rep {R W} w.
Arguments out {R W} w.

(** A computation that reads and writes a state [S] and returns or panics;
    the state at the moment of the panic is kept. *)
Definition M (S A : Type) : Type := S -> result A * S.

Definition state_ret {S A} (a : A) : M S A := fun s => (Ok a, s).
Definition state_bind {S A B} (m : M S A) (k : A -> M S B) : M S B :=
  fun s =>
    match m s with
    | (Ok a, s') => k a s'
    | (Panicked p, s') => (Panicked p, s')
    end.
Definition gets {S A} (f : S -> A) : M S A := fun s => (Ok (f s), s).
Definition lift {S A} (x : result A) : M S A := fun s => (x, s).

(** [out.Write([]byte(buf))], of which [Report] keeps the error only. *)
Definition sink_write {R W} `{Writer W} (buf : string) : M (World R W) error :=
  fun w =>
    let '(o, (_, e)) := Write (out w) buf in
    (Ok e, mkWorld (rep w) o).

#[global] Instance M_ret {S} : MRet (M S) := fun A a => state_ret a.
#[global] Instance M_bind {S} : MBind (M S) := fun A B k m => state_bind m k.

(** ** container/list

    A [list.List] is the sequence of the values of its elements, front to
    back.  An element's [Value] has interface type: it holds a [*Response]
    or a value of some other dynamic type. *)

Inductive any : Type :=
  | Resp (p : ptr)
  | Other (tag : nat).

(** The type assertion of [v] to a pointer to [Response]. *)
Definition as_Response (v : any) : result ptr :=
  match v with
  | Resp p => Ok p
  | Other _ => Panicked TypeAssertion
  end.

(** [e.Value] for the element [e] that [Front()] or [Back()] returned; both
    return nil on a list without elements. *)
Definition Value (e : option any) : result any :=
  match e with
  | Some v => Ok v
  | None => Panicked NilDereference
  end.

Definition Len (l : list any) : Z := Z.of_nat (length l).
Definition PushFront (v : any) (l : list any) : list any := v :: l.
Definition PushBack (v : any) (l : list any) : list any := l ++ [v].
Definition Front (l : list any) : option any := head l.
Definition Back (l : list any) : option any := last l.

(** ** GraphicalReporter *)

Module Graphical.

Record GraphicalReporter : Type := mkGraphicalReporter { responses : list any }.

Definition NewGraphicalReporter : GraphicalReporter :=
  {| responses := [] |}.

(** The loop of [Add], with [e] at the front of [l]: the list that replaces
    [l].  [InsertBefore(res, e)] puts [res] in front of [l]; when [e] runs
    off the end the loop is left and nothing has been inserted. *)
Fixpoint scan (res : ptr) (l : list any) : result (list any) :=
  match l with
  | [] => Ok []
  | v :: l' =>
      needle ← as_Response v;
      x ← deref res;
      n ← deref needle;
      if Before (timestamp x) (timestamp n)
      then Ok (Resp res :: v :: l')
      else l'' ← scan res l'; Ok (v :: l'')
  end.

Definition Add (r : GraphicalReporter) (res : ptr) : result GraphicalReporter :=
  let l := responses r in
  if Len l =? 0 then Ok {| responses := PushFront (Resp res) l |}
  else
    lst ← Value (Back l) ≫= as_Response;
    a ← deref lst;
    x ← deref res;
    if Before (timestamp a) (timestamp x)
    then Ok {| responses := PushBack (Resp res) l |}
    else
      first ← Value (Front l) ≫= as_Response;
      b ← deref first;
      if After (timestamp b) (timestamp x)
      then Ok {| responses := PushFront (Resp res) l |}
      else l' ← scan res l; Ok {| responses := l' |}.

(** The loop of [Report] over the elements still to visit. *)
Fixpoint report_loop (rt : Runtime) (l : list any) (buf : string) : result string :=
  match l with
  | [] => Ok buf
  | v :: l' =>
      r ← as_Response v;
      x ← deref r;
      report_loop rt l' (buf +:+ Sprintln (Time_String rt (timestamp x)))
  end.

Definition Report {W} `{Writer W} (rt : Runtime) : M (World GraphicalReporter W) error :=
  l ← gets (fun w => responses (rep w));
  buf ← lift (report_loop rt l "");
  sink_write buf.

(** [Add] once per event, in arrival order. *)
Fixpoint add_all (r : GraphicalReporter) (evs : list ptr) : result GraphicalReporter :=
  match evs with
  | [] => Ok r
  | e :: evs' => r' ← Add r e; add_all r' evs'
  end.

End Graphical.

(** ** TextReporter *)

Module Text.

Record TextReporter : Type := mkTextReporter { responses : list ptr }.

(** [make([]*Response, n)] is a slice of length [n] whose elements are all
    nil; a negative length panics. *)
Definition NewTextReporter (n : Z) : result TextReporter :=
  if n <? 0 then Panicked MakeSliceLen
  else Ok {| responses := replicate (Z.to_nat n) None |}.

Definition Add (r : TextReporter) (res : ptr) : TextReporter :=
  {| responses := responses r ++ [res] |}.

(** The variables the first loop of [Report] updates. *)
Record totals : Type := mkTotals {
  totalTime : Z;
  totalBytesOut : Z;
  totalBytesIn : Z;
  totalSuccess : Z;
  histogram : gmap Z Z;
  errors : gset string
}.

Definition zero : totals :=
  {| totalTime := 0; totalBytesOut := 0; totalBytesIn := 0; totalSuccess := 0;
     histogram := ∅; errors := ∅ |}.

(** The test the loop makes on the status code. *)
Definition successful (x : Response) : bool :=
  (200 <=? code x) && (code x <? 300).

(** The body of the first loop, for an event [x] that [res] points to. *)
Definition tally_event (t : totals) (x : Response) : totals :=
  {| histogram :=
       <[code x := u64 (default 0 (histogram t !! code x) + 1)]> (histogram t);
     totalTime := i64 (totalTime t + timing x);
     totalBytesOut := u64 (totalBytesOut t + bytesOut x);
     totalBytesIn := u64 (totalBytesIn t + bytesIn x);
     totalSuccess :=
       if successful x then u64 (totalSuccess t + 1) else totalSuccess t;
     errors :=
       match err x with
       | Some msg => {[ msg ]} ∪ errors t
       | None => errors t
       end |}.

(** The body of the first loop; reading a field through a nil [res]
    panics. *)
Definition tally (t : totals) (res : ptr) : result totals :=
  x ← deref res; Ok (tally_event t x).

Fixpoint loop (l : list ptr) (t : totals) : result totals :=
  match l with
  | [] => Ok t
  | res :: l' => t' ← tally t res; loop l' t'
  end.

Definition avgTime (rt : Runtime) (t : totals) (totalRequests : Z) : Z :=
  int64_of_float64 rt
    (float64_div (float64_of_int (totalTime t)) (float64_of_int totalRequests)).
Definition avgBytesOut (t : totals) (totalRequests : Z) : float64 :=
  float64_div (float64_of_int (totalBytesOut t)) (float64_of_int totalRequests).
Definition avgBytesIn (t : totals) (totalRequests : Z) : float64 :=
  float64_div (float64_of_int (totalBytesIn t)) (float64_of_int totalRequests).
Definition avgSuccess (t : totals) (totalRequests : Z) : float64 :=
  float64_div (float64_of_int (totalSuccess t)) (float64_of_int totalRequests).

Definition histogram_line (buf : string) (kv : Z * Z) : string :=
  buf +:+ fmt_wd 3 (fst kv) +:+ tab +:+ fmt_d (snd kv) +:+ nl.
Definition error_line (buf : string) (msg : string) : string :=
  buf +:+ Sprintln msg.

(** The text [Report] builds in [buf]. *)
Definition render (rt : Runtime) (t : totals) (totalRequests : Z) : string :=
  let buf := "" in
  let buf := buf +:+ Sprintln "Results: " in
  let buf := buf +:+ "Time      (avg): " +:+ Duration_String rt (avgTime rt t totalRequests) +:+ nl in
  let buf := buf +:+ "Bytes out (avg): " +:+ fmt_f rt (avgBytesOut t totalRequests) +:+ nl in
  let buf := buf +:+ "Bytes in  (avg): " +:+ fmt_f rt (avgBytesIn t totalRequests) +:+ nl in
  let buf := buf +:+ "Success ratio:   " +:+ fmt_f rt (avgSuccess t totalRequests) +:+ nl in
  let buf := buf +:+ "Requests:        " +:+ fmt_d totalRequests +:+ nl in
  let buf := buf +:+ Sprintln (nl +:+ "Status codes histogram:") in
  let buf := foldl histogram_line buf (range_histogram rt (histogram t)) in
  let buf := buf +:+ Sprintln (nl +:+ "Error set:") in
  let buf := foldl error_line buf (range_errors rt (errors t)) in
  buf.

Definition Report {W} `{Writer W} (rt : Runtime) : M (World TextReporter W) error :=
  l ← gets (fun w => responses (rep w));
  let totalRequests := Z.of_nat (length l) in
  t ← lift (loop l zero);
  sink_write (render rt t totalRequests).

(** [Add] once per event, in arrival order. *)
Definition add_all (r : TextReporter) (evs : list ptr) : TextReporter :=
  foldl Add r evs.

End Text.

(** ** The Reporter interface *)

Class Reporter (R : Type) : Type := {
  Add : R -> ptr -> result R;
  Report : forall {W} `{Writer W}, Runtime -> M (World R W) error
}.

#[global] Instance TextReporter_Reporter : Reporter Text.TextReporter := {
  Add r res := Ok (Text.Add r res);
  Report W _ := Text.Report
}.

#[global] Instance GraphicalReporter_Reporter : Reporter Graphical.GraphicalReporter := {
  Add := Graphical.Add;
  Report W _ := Graphical.Report
}.

(** ** Sinks and a run-time system to run examples on *)

(** A sink that accepts every write and keeps what was written, as a
    [bytes.Buffer] does. *)
Definition Buffer : Type := string.
#[global] Instance Buffer_Writer : Writer Buffer :=
  fun b p => (b +:+ p, (Z.of_nat (String.length p), None)).

(** A sink that refuses every write, as a closed file does. *)
Inductive ClosedFile : Type := closed_file.
#[global] Instance ClosedFile_Writer : Writer ClosedFile :=
  fun f _ => (f, (0, Some "file already closed")).

(** A run-time system for the examples: [range] visits a map in the order
    [map_to_list] and [elements] give; a duration is printed as its number of nanoseconds, a time
    as its instant, a float as [NaN], [0], [Inf] or mantissa and exponent
    (stand-ins for the texts of Go's library, which no result here depends
    on); an unrepresentable conversion gives the least [int64]. *)
Definition example_fmt_f (f : float64) : string :=
  match f with
  | S754_nan => "NaN"
  | S754_zero s => if s then "-0" else "0"
  | S754_infinity s => if s then "-Inf" else "+Inf"
  | S754_finite s m e =>
      (if s then "-" else "") +:+ pretty (Z.pos m) +:+ "p" +:+ pretty e
  end.

Definition example_runtime : Runtime :=
  {| Duration_String d := pretty d +:+ "ns";
     fmt_f := example_fmt_f;
     Time_String t := pretty t;
     int64_indefinite _ := - 2 ^ 63;
     range_histogram := map_to_list;
     range_histogram_perm m := reflexivity _;
     range_errors := elements;
     range_errors_perm s := reflexivity _ |}.

(** * Properties *)

(** ** GraphicalReporter: the list holds what Add put there *)

Section Graphical_stored.

Import Graphical.

(** The list whose elements hold the events [xs], none of them nil. *)
Definition stored (xs : list Response) : list any :=
  (fun x => Resp (Some x)) <$> xs.

Lemma stored_cons x xs : stored (x :: xs) = Resp (Some x) :: stored xs.
Proof. reflexivity. Qed.

Lemma stored_app xs ys : stored (xs ++ ys) = stored xs ++ stored ys.
Proof. apply fmap_app. Qed.

Lemma stored_inj xs ys : stored xs = stored ys -> xs = ys.
Proof.
  revert ys. induction xs as [|x xs IH]; intros [|y ys] E; try discriminate.
  - reflexivity.
  - injection E as -> E. f_equal. auto.
Qed.

Lemma Back_stored xs : Back (stored xs) = (fun x => Resp (Some x)) <$> last xs.
Proof. unfold Back, stored. apply fmap_last. Qed.

Lemma scan_stored_cons x y xs :
  scan (Some x) (stored (y :: xs))
    = if Before (timestamp x) (timestamp y)
      then Ok (stored (x :: y :: xs))
      else l ← scan (Some x) (stored xs); Ok (Resp (Some y) :: l).
Proof. reflexivity. Qed.

Lemma Add_stored_nil x :
  Add (mkGraphicalReporter (stored [])) (Some x) = Ok (mkGraphicalReporter (stored [x])).
Proof. reflexivity. Qed.

Lemma Add_stored_cons x y xs z :
  last (y :: xs) = Some z ->
  Add (mkGraphicalReporter (stored (y :: xs))) (Some x)
    = if Before (timestamp z) (timestamp x)
      then Ok (mkGraphicalReporter (stored ((y :: xs) ++ [x])))
      else if After (timestamp y) (timestamp x)
      then Ok (mkGraphicalReporter (stored (x :: y :: xs)))
      else l ← scan (Some x) (stored (y :: xs)); Ok (mkGraphicalReporter l).
Proof.
  intros El. unfold Add. cbn [responses].
  rewrite Back_stored, El, stored_app. reflexivity.
Qed.

Lemma scan_stored x xs :
  exists ys, scan (Some x) (stored xs) = Ok (stored ys) /\ ys ⊆ x :: xs.
Proof.
  induction xs as [|y xs (ys & E & Hsub)].
  - exists []. split; [reflexivity | apply list_subseteq_nil].
  - rewrite scan_stored_cons.
    destruct (Before (timestamp x) (timestamp y)).
    + exists (x :: y :: xs). split; reflexivity.
    + rewrite E. exists (y :: ys). split; [reflexivity |].
      intros u [->|Hu]%elem_of_cons.
      * apply elem_of_cons. right. apply elem_of_cons. by left.
      * apply Hsub in Hu. apply elem_of_cons in Hu as [->|Hu].
        -- apply elem_of_cons. by left.
        -- do 2 (apply elem_of_cons; right). exact Hu.
Qed.

Lemma Add_stored x xs :
  exists ys,
    Add (mkGraphicalReporter (stored xs)) (Some x) = Ok (mkGraphicalReporter (stored ys))
    /\ ys ⊆ x :: xs.
Proof.
  destruct xs as [|y xs].
  - exists [x]. split; reflexivity.
  - destruct (last (y :: xs)) as [z|] eqn:El;
      [| apply last_None in El; discriminate].
    rewrite (Add_stored_cons _ _ _ _ El).
    destruct (Before (timestamp z) (timestamp x)).
    { exists ((y :: xs) ++ [x]). split; [reflexivity |].
      intros u [Hu| ->%list_elem_of_singleton]%elem_of_app.
      - apply elem_of_cons. by right.
      - apply elem_of_cons. by left. }
    destruct (After (timestamp y) (timestamp x)).
    { exists (x :: y :: xs). split; reflexivity. }
    destruct (scan_stored x (y :: xs)) as (ys & E & Hsub).
    rewrite E. exists ys. split; [reflexivity | exact Hsub].
Qed.

Lemma add_all_stored evs xs :
  exists ys,
    add_all (mkGraphicalReporter (stored xs)) (Some <$> evs)
      = Ok (mkGraphicalReporter (stored ys))
    /\ ys ⊆ xs ++ evs.
Proof.
  revert xs. induction evs as [|e evs IH]; intros xs.
  - exists xs. split; [reflexivity |]. by rewrite app_nil_r.
  - destruct (Add_stored e xs) as (ys & E & Hsub).
    destruct (IH ys) as (zs & E' & Hsub').
    exists zs. split.
    + cbn. rewrite E. exact E'.
    + intros u Hu. apply Hsub' in Hu. apply elem_of_app in Hu as [Hu|Hu].
      * apply Hsub in Hu. apply elem_of_cons in Hu as [->|Hu].
        -- apply elem_of_app. right. apply elem_of_cons. by left.
        -- apply elem_of_app. by left.
      * apply elem_of_app. right. apply elem_of_cons. by right.
Qed.

Lemma report_loop_stored rt xs buf :
  report_loop rt (stored xs) buf
    = Ok (foldl (fun b x => b +:+ Sprintln (Time_String rt (timestamp x))) buf xs).
Proof.
  revert buf. induction xs as [|x xs IH]; intros buf; [reflexivity|].
  rewrite stored_cons. cbn. apply IH.
Qed.

(** A nil pointer is outside this invariant: the first [Add] stores it and
    the next one reads a field through it. *)
Example Add_after_nil (x : Response) :
  add_all NewGraphicalReporter [None; Some x] = Panicked NilDereference.
Proof. reflexivity. Qed.

End Graphical_stored.

(** ** GraphicalReporter: where Add puts an event *)

Section Graphical_order.

Import Graphical.

Definition no_later (a b : Response) : Prop := timestamp a <= timestamp b.

(** Ascending by timestamp. *)
Definition chronological (xs : list Response) : Prop :=
  StronglySorted no_later xs.

(** [x] placed behind the events that are not later than [x] and in front
    of the later ones. *)
Definition place (x : Response) (xs : list Response) : list Response :=
  filter (fun y => timestamp y <= timestamp x) xs
    ++ x :: filter (fun y => timestamp x < timestamp y) xs.

Lemma filter_all {A} (P : A -> Prop) `{forall a, Decision (P a)} (l : list A) :
  Forall P l -> filter P l = l.
Proof.
  induction 1 as [|a l Ha _ IH]; [reflexivity|].
  rewrite filter_cons_True by exact Ha. by rewrite IH.
Qed.

Lemma filter_none {A} (P : A -> Prop) `{forall a, Decision (P a)} (l : list A) :
  Forall (fun a => ~ P a) l -> filter P l = [].
Proof.
  induction 1 as [|a l Ha _ IH]; [reflexivity|].
  rewrite filter_cons_False by exact Ha. exact IH.
Qed.

Lemma place_all_later x xs :
  Forall (fun y => timestamp x < timestamp y) xs -> place x xs = x :: xs.
Proof.
  intros Hall. unfold place.
  rewrite (filter_all _ _ Hall), filter_none; [reflexivity|].
  eapply Forall_impl; [exact Hall | cbn; lia].
Qed.

Lemma place_none_later x xs :
  Forall (fun y => timestamp y <= timestamp x) xs -> place x xs = xs ++ [x].
Proof.
  intros Hall. unfold place.
  rewrite (filter_all _ _ Hall), filter_none; [reflexivity|].
  eapply Forall_impl; [exact Hall | cbn; lia].
Qed.

Lemma place_cons_le x y xs :
  timestamp y <= timestamp x -> place x (y :: xs) = y :: place x xs.
Proof.
  intros Hle. unfold place.
  rewrite filter_cons_True by exact Hle.
  rewrite filter_cons_False by lia. reflexivity.
Qed.

Lemma split_at_perm x xs :
  filter (fun y => timestamp y <= timestamp x) xs
    ++ filter (fun y => timestamp x < timestamp y) xs ≡ₚ xs.
Proof.
  induction xs as [|y xs IH]; [reflexivity|].
  destruct (decide (timestamp y <= timestamp x)) as [Hle|Hgt].
  - rewrite filter_cons_True by exact Hle.
    rewrite filter_cons_False by lia.
    cbn. by constructor.
  - rewrite filter_cons_False by exact Hgt.
    rewrite filter_cons_True by lia.
    rewrite <- Permutation_middle. by constructor.
Qed.

Lemma place_perm x xs : place x xs ≡ₚ x :: xs.
Proof.
  unfold place. rewrite <- Permutation_middle.
  constructor. apply split_at_perm.
Qed.

Lemma chronological_last_max xs z :
  chronological xs -> last xs = Some z ->
  Forall (fun y => timestamp y <= timestamp z) xs.
Proof.
  induction 1 as [|y xs Hs IH Hy]; intros El; [constructor|].
  destruct xs as [|y' xs'].
  - injection El as ->. constructor; [lia | constructor].
  - specialize (IH El). constructor; [| exact IH].
    apply Forall_cons in Hy as [Hyy' _]. apply Forall_cons in IH as [Hy'z _].
    unfold no_later in Hyy'. lia.
Qed.

Lemma chronological_place x xs : chronological xs -> chronological (place x xs).
Proof.
  unfold chronological.
  induction 1 as [|y xs Hs IH Hy].
  - repeat constructor.
  - destruct (decide (timestamp y <= timestamp x)) as [Hle|Hgt].
    + rewrite place_cons_le by exact Hle. constructor; [exact IH|].
      rewrite (place_perm x xs). constructor; [exact Hle | exact Hy].
    + rewrite place_all_later.
      * constructor; [by constructor |].
        constructor; [unfold no_later; lia |].
        eapply Forall_impl; [exact Hy | unfold no_later; cbn; lia].
      * constructor; [lia |].
        eapply Forall_impl; [exact Hy | unfold no_later; cbn; lia].
Qed.

(** The scan passes the events that are not later than [x] and stops at the
    first later one. *)
Lemma scan_chronological x xs :
  chronological xs ->
  Exists (fun y => timestamp x < timestamp y) xs ->
  scan (Some x) (stored xs) = Ok (stored (place x xs)).
Proof.
  induction 1 as [|y xs Hs IH Hy]; intros Hex.
  - by apply Exists_nil in Hex.
  - rewrite scan_stored_cons. unfold Before.
    destruct (Z.ltb_spec (timestamp x) (timestamp y)) as [Hlt|Hge].
    + rewrite place_all_later; [reflexivity|].
      constructor; [exact Hlt|].
      eapply Forall_impl; [exact Hy | unfold no_later; cbn; lia].
    + apply Exists_cons in Hex as [Hex|Hex]; [lia|].
      rewrite (IH Hex), place_cons_le by lia. reflexivity.
Qed.

(** Without a later event the scan runs off the end and inserts nothing. *)
Lemma scan_none_later x xs :
  Forall (fun y => timestamp y <= timestamp x) xs ->
  scan (Some x) (stored xs) = Ok (stored xs).
Proof.
  induction 1 as [|y xs Hy _ IH]; [reflexivity|].
  rewrite scan_stored_cons. unfold Before.
  destruct (Z.ltb_spec (timestamp x) (timestamp y)) as [Hlt|Hge]; [lia|].
  rewrite IH. reflexivity.
Qed.

(** What [Add] does to a list in ascending order: an event that ties with
    the last one is not inserted, any other is inserted at its place. *)
Lemma Add_chronological x xs :
  chronological xs ->
  Add (mkGraphicalReporter (stored xs)) (Some x)
    = Ok (mkGraphicalReporter (stored
        (if decide (timestamp <$> last xs = Some (timestamp x)) then xs
         else place x xs))).
Proof.
  intros Hs. destruct xs as [|y xs]; [reflexivity|].
  destruct (last (y :: xs)) as [z|] eqn:El;
    [| apply last_None in El; discriminate].
  rewrite (Add_stored_cons _ _ _ _ El). cbn [fmap option_fmap option_map].
  pose proof (chronological_last_max _ _ Hs El) as Hmax.
  unfold Before, After.
  destruct (Z.ltb_spec (timestamp z) (timestamp x)) as [Hzx|Hxz].
  { rewrite decide_False by (intros [= E]; lia).
    rewrite place_none_later; [reflexivity|].
    eapply Forall_impl; [exact Hmax | cbn; lia]. }
  destruct (Z.ltb_spec (timestamp x) (timestamp y)) as [Hxy|Hyx].
  { apply Forall_cons in Hmax as Hyz. destruct Hyz as [Hyz _].
    rewrite decide_False by (intros [= E]; lia).
    rewrite place_all_later; [reflexivity|].
    constructor; [exact Hxy|]. apply StronglySorted_inv in Hs as [_ Hy].
    eapply Forall_impl; [exact Hy | unfold no_later; cbn; lia]. }
  destruct (decide (Some (timestamp z) = Some (timestamp x))) as [[= E]|Hne].
  - rewrite scan_none_later; [reflexivity|].
    eapply Forall_impl; [exact Hmax | cbn; lia].
  - rewrite scan_chronological; [reflexivity | exact Hs |].
    apply Exists_exists. exists z. split.
    + apply last_Some_elem_of in El. exact El.
    + assert (timestamp z <> timestamp x) by congruence. lia.
Qed.

End Graphical_order.

(** ** Computations that leave the reporter alone *)

Section Frame.

Context {R W : Type} `{Writer W}.

Definition keeps_reporter {A} (m : M (World R W) A) : Prop :=
  forall w, rep (snd (m w)) = rep w.

Lemma keeps_gets {A} (f : World R W -> A) : keeps_reporter (gets f).
Proof. intros w. reflexivity. Qed.

Lemma keeps_lift {A} (x : result A) : keeps_reporter (lift x).
Proof. intros w. reflexivity. Qed.

Lemma keeps_sink_write (buf : string) : keeps_reporter (sink_write buf).
Proof.
  intros w. unfold sink_write.
  destruct (Write (out w) buf) as [o [n e]]. reflexivity.
Qed.

Lemma keeps_bind {A B} (m : M (World R W) A) (k : A -> M (World R W) B) :
  keeps_reporter m -> (forall a, keeps_reporter (k a)) -> keeps_reporter (m ≫= k).
Proof.
  intros Hm Hk w. unfold mbind, M_bind, state_bind.
  specialize (Hm w). destruct (m w) as [[a|p] w']; cbn in *.
  - rewrite Hk. exact Hm.
  - exact Hm.
Qed.

End Frame.

(** ** GraphicalReporter: Report *)

Section Graphical_report.

Import Graphical.
Context {W : Type} `{Writer W}.

(** One line per event, front to back. *)
Definition timestamp_lines (rt : Runtime) (xs : list Response) : string :=
  foldl (fun b x => b +:+ Sprintln (Time_String rt (timestamp x))) "" xs.

Lemma Report_stored rt xs (o : W) :
  Report rt (mkWorld (mkGraphicalReporter (stored xs)) o)
    = (Ok (snd (snd (Write o (timestamp_lines rt xs)))),
       mkWorld (mkGraphicalReporter (stored xs))
               (fst (Write o (timestamp_lines rt xs)))).
Proof.
  unfold Report, mbind, M_bind, state_bind, gets, lift, sink_write.
  cbn [rep out responses]. rewrite report_loop_stored.
  fold (timestamp_lines rt xs).
  destruct (Write o (timestamp_lines rt xs)) as [o' [n e]]. reflexivity.
Qed.

Lemma Report_keeps_reporter rt :
  keeps_reporter (Report (W:=W) rt).
Proof.
  unfold Report.
  apply keeps_bind; [apply keeps_gets | intros l].
  apply keeps_bind; [apply keeps_lift | intros buf].
  apply keeps_sink_write.
Qed.

(** The part of the ordering property that holds: whatever was added, the
    list is in ascending order, holds added events only, and [Report]
    prints it front to back. *)
Lemma add_all_chronological evs xs :
  chronological xs ->
  exists ys,
    add_all (mkGraphicalReporter (stored xs)) (Some <$> evs)
      = Ok (mkGraphicalReporter (stored ys))
    /\ chronological ys.
Proof.
  revert xs. induction evs as [|e evs IH]; intros xs Hs.
  - exists xs. split; [reflexivity | exact Hs].
  - cbn. rewrite (Add_chronological _ _ Hs). cbn.
    apply IH. case_decide; [exact Hs | by apply chronological_place].
Qed.

End Graphical_report.

(** ** Wrap-around arithmetic and text *)

Lemma u64_add_l a b : u64 (u64 a + b) = u64 (a + b).
Proof. unfold u64. apply Zplus_mod_idemp_l. Qed.

Lemma i64_add_l a b : i64 (i64 a + b) = i64 (a + b).
Proof.
  unfold i64. f_equal.
  replace ((a + 2 ^ 63) `mod` 2 ^ 64 - 2 ^ 63 + b + 2 ^ 63)
    with ((a + 2 ^ 63) `mod` 2 ^ 64 + b) by lia.
  rewrite Zplus_mod_idemp_l. f_equal. lia.
Qed.

Lemma u64_small z : 0 <= z < 2 ^ 64 -> u64 z = z.
Proof. apply Z.mod_small. Qed.

Lemma append_assoc (a b c : string) : (a +:+ b) +:+ c = a +:+ b +:+ c.
Proof.
  induction a as [|ch a IH]; [reflexivity|].
  change (String ch ((a +:+ b) +:+ c) = String ch (a +:+ b +:+ c)).
  by rewrite IH.
Qed.

Lemma append_nil_r (a : string) : a +:+ "" = a.
Proof.
  induction a as [|ch a IH]; [reflexivity|].
  change (String ch (a +:+ "") = String ch a). by rewrite IH.
Qed.

(** [line] is one of the lines of [buf]. *)
Definition has_line (line buf : string) : Prop :=
  exists pre post,
    buf = pre +:+ line +:+ nl +:+ post
    /\ (pre = "" \/ exists p, pre = p +:+ nl).

(** ** TextReporter: the first loop *)

Section Text_loop.

Import Text.

Lemma responses_add_all r evs : responses (add_all r evs) = responses r ++ evs.
Proof.
  revert r. induction evs as [|e evs IH]; intros r; cbn.
  - by rewrite app_nil_r.
  - unfold add_all in IH. rewrite IH. cbn. by rewrite <- app_assoc.
Qed.

Lemma loop_nil_ptr l l' t : loop (l ++ None :: l') t = Panicked NilDereference.
Proof.
  revert t. induction l as [|[x|] l IH]; intros t; cbn; [reflexivity | apply IH | reflexivity].
Qed.

(** On events, none nil, the loop is a fold of its body. *)
Lemma loop_events xs t : loop (Some <$> xs) t = Ok (foldl tally_event t xs).
Proof.
  revert t. induction xs as [|x xs IH]; intros t; [reflexivity|].
  cbn. apply IH.
Qed.

Lemma loop_app_events xs l t :
  loop ((Some <$> xs) ++ l) t = loop l (foldl tally_event t xs).
Proof.
  revert t. induction xs as [|x xs IH]; intros t; [reflexivity|].
  cbn. apply IH.
Qed.



End Text_loop.

(** ** TextReporter: what the loop has counted *)

Section Text_totals.

Import Text.

Lemma successful_spec x : successful x = true <-> 200 <= code x < 300.
Proof. unfold successful. rewrite andb_true_iff, Z.leb_le, Z.ltb_lt. reflexivity. Qed.

(** The number of events whose status code lies in [200,300). *)
Definition successes (xs : list Response) : Z :=
  Z.of_nat (length (filter (fun x => 200 <= code x < 300) xs)).

Lemma successes_cons x xs :
  successes (x :: xs) = (if successful x then 1 else 0) + successes xs.
Proof.
  unfold successes. destruct (successful x) eqn:E.
  - apply successful_spec in E. rewrite filter_cons_True by exact E. cbn [length]. lia.
  - rewrite filter_cons_False; [lia|].
    intros Hx%successful_spec. congruence.
Qed.

Lemma successes_bounds xs : 0 <= successes xs <= Z.of_nat (length xs).
Proof. unfold successes. pose proof (length_filter (fun x => 200 <= code x < 300) xs). lia. Qed.

Lemma totalSuccess_foldl xs t :
  0 <= totalSuccess t < 2 ^ 64 ->
  totalSuccess (foldl tally_event t xs) = u64 (totalSuccess t + successes xs).
Proof.
  revert t. induction xs as [|x xs IH]; intros t Ht.
  - cbn. unfold successes. cbn. rewrite Z.add_0_r. symmetry. by apply u64_small.
  - cbn [foldl]. rewrite IH, successes_cons.
    + unfold tally_event. cbn [totalSuccess]. destruct (successful x).
      * rewrite u64_add_l. f_equal. lia.
      * reflexivity.
    + unfold tally_event. cbn [totalSuccess]. destruct (successful x); [| exact Ht].
      unfold u64. apply Z.mod_pos_bound. lia.
Qed.

(** The error set holds the messages of the events that have one. *)
Lemma errors_foldl xs t :
  errors (foldl tally_event t xs) = errors t ∪ list_to_set (omap err xs).
Proof.
  revert t. induction xs as [|x xs IH]; intros t.
  - cbn. by rewrite (right_id_L ∅ (∪)).
  - cbn [foldl]. rewrite IH. unfold tally_event at 1. cbn [errors omap list_omap].
    destruct (err x) as [msg|]; [| reflexivity].
    cbn [list_to_set]. rewrite (comm_L (∪) {[msg]} (errors t)).
    by rewrite (assoc_L (∪)).
Qed.

(** An event bumps the count of its own status code and no other. *)
Lemma histogram_tally_event t x c :
  histogram (tally_event t x) !! c
    = if decide (code x = c)
      then Some (u64 (default 0 (histogram t !! c) + 1))
      else histogram t !! c.
Proof.
  unfold tally_event. cbn [histogram]. rewrite lookup_insert.
  case_decide; [subst; reflexivity | reflexivity].
Qed.

End Text_totals.

(** ** TextReporter: Report *)

Section Text_report.

Import Text.
Context {W : Type} `{Writer W}.

Lemma Text_Report_run rt r (o : W) t :
  loop (responses r) zero = Ok t ->
  Report rt (mkWorld r o)
    = (Ok (snd (snd (Write o (render rt t (Z.of_nat (length (responses r))))))),
       mkWorld r (fst (Write o (render rt t (Z.of_nat (length (responses r))))))).
Proof.
  intros E.
  unfold Report, mbind, M_bind, state_bind, gets, lift, sink_write.
  cbn [rep out]. rewrite E.
  destruct (Write o _) as [o' [n e]]. reflexivity.
Qed.

Lemma Text_Report_panics rt r (o : W) p :
  loop (responses r) zero = Panicked p ->
  Report rt (mkWorld r o) = (Panicked p, mkWorld r o).
Proof.
  intros E.
  unfold Report, mbind, M_bind, state_bind, gets, lift, sink_write.
  cbn [rep out]. rewrite E. reflexivity.
Qed.

Lemma Text_Report_keeps_reporter rt :
  keeps_reporter (Report (W:=W) rt).
Proof.
  unfold Report.
  apply keeps_bind; [apply keeps_gets | intros l].
  apply keeps_bind; [apply keeps_lift | intros t].
  apply keeps_sink_write.
Qed.

(** A sink that refuses the write: [Report] returns the sink's error. *)
Example Text_Report_closed_file :
  Report example_runtime (mkWorld (mkTextReporter []) closed_file)
    = (Ok (Some "file already closed"), mkWorld (mkTextReporter []) closed_file).
Proof. reflexivity. Qed.

End Text_report.

Section Text_render.

Import Text.

Lemma foldl_error_line buf l :
  foldl error_line buf l = buf +:+ foldl error_line "" l.
Proof.
  revert buf. induction l as [|e l IH]; intros buf; cbn [foldl].
  - by rewrite append_nil_r.
  - rewrite IH, (IH (error_line "" e)). unfold error_line.
    exact (append_assoc buf _ _).
Qed.

Lemma foldl_histogram_line buf l :
  foldl histogram_line buf l = buf +:+ foldl histogram_line "" l.
Proof.
  revert buf. induction l as [|e l IH]; intros buf; cbn [foldl].
  - by rewrite append_nil_r.
  - rewrite IH, (IH (histogram_line "" e)). unfold histogram_line.
    exact (append_assoc buf _ _).
Qed.

(** The text ends with the header of the error set and one line per
    message. *)
Lemma render_error_set rt t n :
  exists before,
    render rt t n
      = before +:+ Sprintln (nl +:+ "Error set:")
          +:+ foldl error_line "" (range_errors rt (errors t)).
Proof.
  unfold render. cbv zeta. rewrite foldl_error_line.
  eexists. rewrite append_assoc. reflexivity.
Qed.

(** The text has the line of the request count. *)
Lemma render_Requests rt t n :
  has_line ("Requests:        " +:+ fmt_d n) (render rt t n).
Proof.
  unfold render. cbv zeta.
  rewrite foldl_error_line, foldl_histogram_line.
  set (hist := foldl histogram_line "" _). set (errs := foldl error_line "" _).
  set (B3 := (((("" +:+ Sprintln "Results: ") +:+ _) +:+ _) +:+ _)).
  exists ((B3 +:+ "Success ratio:   " +:+ fmt_f rt (avgSuccess t n)) +:+ nl),
         ((Sprintln (nl +:+ "Status codes histogram:") +:+ hist)
            +:+ Sprintln (nl +:+ "Error set:") +:+ errs).
  split; [| right; eauto].
  rewrite !append_assoc. reflexivity.
Qed.

End Text_render.

(** ** TextReporter: the text line by line *)

Section Text_layout.

Import Text.

(** The whole text: five summary lines, the request count, and the two
    sections with their headers. *)
Lemma render_layout rt t n :
  render rt t n
    = "Results: " +:+ nl
        +:+ "Time      (avg): " +:+ Duration_String rt (avgTime rt t n) +:+ nl
        +:+ "Bytes out (avg): " +:+ fmt_f rt (avgBytesOut t n) +:+ nl
        +:+ "Bytes in  (avg): " +:+ fmt_f rt (avgBytesIn t n) +:+ nl
        +:+ "Success ratio:   " +:+ fmt_f rt (avgSuccess t n) +:+ nl
        +:+ "Requests:        " +:+ fmt_d n +:+ nl
        +:+ nl +:+ "Status codes histogram:" +:+ nl
        +:+ foldl histogram_line "" (range_histogram rt (histogram t))
        +:+ nl +:+ "Error set:" +:+ nl
        +:+ foldl error_line "" (range_errors rt (errors t)).
Proof.
  unfold render, Sprintln. cbv zeta.
  rewrite foldl_error_line, foldl_histogram_line.
  rewrite !append_assoc. reflexivity.
Qed.

Lemma render_Time rt t n :
  has_line ("Time      (avg): " +:+ Duration_String rt (avgTime rt t n)) (render rt t n).
Proof.
  rewrite render_layout.
  exists ("Results: " +:+ nl). eexists.
  split; [| right; by exists "Results: "].
  rewrite !append_assoc. reflexivity.
Qed.

Lemma render_Success_ratio rt t n :
  has_line ("Success ratio:   " +:+ fmt_f rt (avgSuccess t n)) (render rt t n).
Proof.
  rewrite render_layout.
  exists (("Results: " +:+ nl
            +:+ "Time      (avg): " +:+ Duration_String rt (avgTime rt t n) +:+ nl
            +:+ "Bytes out (avg): " +:+ fmt_f rt (avgBytesOut t n) +:+ nl
            +:+ "Bytes in  (avg): " +:+ fmt_f rt (avgBytesIn t n)) +:+ nl).
  eexists. split; [| right; eauto].
  rewrite !append_assoc. reflexivity.
Qed.

(** With nothing counted both sections are empty. *)
Lemma range_histogram_empty rt : range_histogram rt ∅ = [].
Proof.
  apply Permutation_nil_r. rewrite (range_histogram_perm rt ∅).
  by rewrite map_to_list_empty.
Qed.

Lemma range_errors_empty rt : range_errors rt ∅ = [].
Proof.
  apply Permutation_nil_r. rewrite (range_errors_perm rt ∅).
  by rewrite elements_empty.
Qed.

(** The count of successes depends on the status codes only. *)
Lemma successes_codes xs ys :
  code <$> xs = code <$> ys -> successes xs = successes ys.
Proof.
  revert ys. induction xs as [|x xs IH]; intros [|y ys] E; try discriminate E.
  - reflexivity.
  - injection E as Ec E. rewrite !successes_cons, (IH ys E).
    unfold successful. by rewrite Ec.
Qed.

Lemma successes_app xs ys : successes (xs ++ ys) = successes xs + successes ys.
Proof. unfold successes. rewrite filter_app, length_app. lia. Qed.

End Text_layout.

(** ** GraphicalReporter: pointers of any kind, nil included *)

Section Graphical_pointers.

Import Graphical.

(** The outcome is a value with property [P], or the panic of a nil
    dereference; a failed type assertion is excluded. *)
Definition Ok_or_nil {A} (P : A -> Prop) (x : result A) : Prop :=
  match x with
  | Ok a => P a
  | Panicked p => p = NilDereference
  end.

(** The list whose elements hold the pointers [ps]. *)
Definition held (ps : list ptr) : list any := Resp <$> ps.

Lemma scan_held res ps :
  Ok_or_nil (fun l => exists ps', l = held ps' /\ ps' ⊆ res :: ps)
    (scan res (held ps)).
Proof.
  induction ps as [|q ps IH].
  - exists []. split; [reflexivity | apply list_subseteq_nil].
  - cbn. destruct res as [x|]; [| reflexivity]. cbn.
    destruct q as [n|]; [| reflexivity]. cbn.
    destruct (Before (timestamp x) (timestamp n)).
    + exists (Some x :: Some n :: ps). split; reflexivity.
    + fold (held ps). destruct (scan (Some x) (held ps)) as [l|p]; [| exact IH].
      destruct IH as (ps' & -> & Hsub). exists (Some n :: ps').
      split; [reflexivity|].
      intros u [->|Hu]%elem_of_cons.
      * apply elem_of_cons. right. apply elem_of_cons. by left.
      * apply Hsub in Hu. apply elem_of_cons in Hu as [->|Hu].
        -- apply elem_of_cons. by left.
        -- do 2 (apply elem_of_cons; right). exact Hu.
Qed.

Lemma Add_held res ps :
  Ok_or_nil (fun r => exists ps', responses r = held ps' /\ ps' ⊆ res :: ps)
    (Add (mkGraphicalReporter (held ps)) res).
Proof.
  destruct ps as [|q ps].
  - exists [res]. split; reflexivity.
  - unfold Add. cbn [responses].
    replace (Len (held (q :: ps)) =? 0) with false by reflexivity.
    unfold Back, held. rewrite fmap_last.
    destruct (last (q :: ps)) as [z|] eqn:El;
      [| apply last_None in El; discriminate].
    cbn. destruct z as [a|]; [| reflexivity]. cbn.
    destruct res as [x|]; [| reflexivity]. cbn.
    destruct (Before (timestamp a) (timestamp x)).
    { exists ((q :: ps) ++ [Some x]).
      split; [cbn [responses]; unfold held; rewrite fmap_app; reflexivity |].
      intros u [Hu| ->%list_elem_of_singleton]%elem_of_app.
      - apply elem_of_cons. by right.
      - apply elem_of_cons. by left. }
    destruct q as [b|]; [| reflexivity]. cbn.
    destruct (After (timestamp b) (timestamp x)).
    { exists (Some x :: Some b :: ps). split; reflexivity. }
    pose proof (scan_held (Some x) (Some b :: ps)) as Hscan.
    unfold held in Hscan. cbn in Hscan. cbn.
    destruct (Before (timestamp x) (timestamp b)); [exact Hscan|].
    destruct (scan (Some x) (Resp <$> ps)) as [l|p]; exact Hscan.
Qed.

Lemma add_all_held evs ps :
  Ok_or_nil (fun r => exists ps', responses r = held ps' /\ ps' ⊆ ps ++ evs)
    (add_all (mkGraphicalReporter (held ps)) evs).
Proof.
  revert ps. induction evs as [|e evs IH]; intros ps.
  - exists ps. split; [reflexivity |]. by rewrite app_nil_r.
  - cbn [add_all]. pose proof (Add_held e ps) as HA.
    destruct (Add (mkGraphicalReporter (held ps)) e) as [[l]|p]; [| exact HA].
    destruct HA as (ps' & Hl & Hsub). cbn in Hl. subst l. cbn.
    pose proof (IH ps') as HI.
    destruct (add_all (mkGraphicalReporter (held ps')) evs) as [r|p]; [| exact HI].
    destruct HI as (ps'' & Hr & Hsub'). exists ps''. split; [exact Hr|].
    intros u Hu. apply Hsub' in Hu. apply elem_of_app in Hu as [Hu|Hu].
    + apply Hsub in Hu. apply elem_of_cons in Hu as [->|Hu].
      * apply elem_of_app. right. apply elem_of_cons. by left.
      * apply elem_of_app. by left.
    + apply elem_of_app. right. apply elem_of_cons. by right.
Qed.

Lemma report_loop_held rt ps buf :
  Ok_or_nil (fun _ => True) (report_loop rt (held ps) buf).
Proof.
  revert buf. induction ps as [|q ps IH]; intros buf; [exact I|].
  cbn. destruct q as [x|]; [apply IH | reflexivity].
Qed.

Lemma Report_held rt {W} `{Writer W} ps (o : W) :
  Ok_or_nil (fun _ => True)
    (fst (Report rt (mkWorld (mkGraphicalReporter (held ps)) o))).
Proof.
  unfold Report, mbind, M_bind, state_bind, gets, lift, sink_write.
  cbn [rep out responses]. pose proof (report_loop_held rt ps "") as HL.
  destruct (report_loop rt (held ps) "") as [buf|p]; [| exact HL].
  destruct (Write o buf) as [o' [n e]]. exact I.
Qed.

End Graphical_pointers.

(** * The claims *)

(** ** GraphicalReporter *)

(** C10, as amended. Every element of the list of a reporter reached from
    [NewGraphicalReporter] by [Add] calls holds a pointer that was added,
    so no type assertion of [Add] or [Report] fails. When the pointers
    added are events, none of them nil, the [Add] calls return, one more
    [Add] returns, and [Report] returns, whatever the sink. With pointers
    of any kind, nil included, a call that does not return panics on the
    dereference of a nil pointer, never on a type assertion. *)
Theorem Graphical_reachable_never_panics (evs : list Response) :
  (exists r,
     Graphical.add_all Graphical.NewGraphicalReporter (Some <$> evs) = Ok r
     /\ Forall (fun v => exists x, v = Resp (Some x) /\ x ∈ evs /\ is_Ok (as_Response v))
          (Graphical.responses r)
     /\ (forall x, is_Ok (Graphical.Add r (Some x)))
     /\ (forall (rt : Runtime) (W : Type) (H : Writer W) (o : W),
           is_Ok (fst (Graphical.Report rt (mkWorld r o)))))
  /\ (forall ps : list ptr,
        Ok_or_nil
          (fun r =>
             Forall (fun v => exists p, v = Resp p /\ p ∈ ps /\ is_Ok (as_Response v))
               (Graphical.responses r)
             /\ (forall p, Ok_or_nil (fun _ => True) (Graphical.Add r p))
             /\ (forall (rt : Runtime) (W : Type) (H : Writer W) (o : W),
                   Ok_or_nil (fun _ => True) (fst (Graphical.Report rt (mkWorld r o)))))
          (Graphical.add_all Graphical.NewGraphicalReporter ps)).
Proof.
  split.
  - destruct (add_all_stored evs []) as (ys & E & Hsub).
    exists (Graphical.mkGraphicalReporter (stored ys)).
    split; [exact E|]. split; [| split].
    + cbn. unfold stored. apply Forall_fmap, Forall_forall. intros x Hx.
      exists x. repeat split. by apply Hsub.
    + intros x. destruct (Add_stored x ys) as (zs & Ez & _). by rewrite Ez.
    + intros rt W H o. by rewrite Report_stored.
  - intros ps. pose proof (add_all_held ps []) as HA.
    change (Graphical.mkGraphicalReporter (held []))
      with Graphical.NewGraphicalReporter in HA.
    destruct (Graphical.add_all Graphical.NewGraphicalReporter ps) as [[l]|p];
      [| exact HA].
    destruct HA as (ps' & Hl & Hsub). cbn in Hl. subst l. cbn [Ok_or_nil].
    split; [| split].
    + cbn. unfold held. apply Forall_fmap, Forall_forall. intros q Hq.
      exists q. repeat split. by apply Hsub.
    + intros q. pose proof (Add_held q ps') as HB.
      destruct (Graphical.Add _ q) as [r|e]; [exact I | exact HB].
    + intros rt W H o. apply Report_held.
Qed.

(** C10 as first stated fails: a nil pointer is stored by an [Add] that
    returns, and on the reporter so reached the next [Add] and [Report]
    panic. *)
Lemma Graphical_reachable_after_nil_panics :
  exists r,
    Graphical.Add Graphical.NewGraphicalReporter None = Ok r
    /\ Graphical.Add r (Some (mkResponse 200 1 0 0 0 None)) = Panicked NilDereference
    /\ fst (Graphical.Report example_runtime (mkWorld r (""%string : Buffer)))
       = Panicked NilDereference.
Proof. eexists. split; [reflexivity|]. split; reflexivity. Qed.

(** C1, where the code departs from it. Events with timestamps 3, 1 and 3
    are added in that order. The third ties with the last element of the
    list: no branch of [Add] inserts it, and [Report] prints two lines for
    three events. *)
Theorem Graphical_Report_omits_tied_event (rt : Runtime) :
  let a := mkResponse 200 3 0 0 0 None in
  let b := mkResponse 200 1 0 0 0 None in
  let c := mkResponse 404 3 0 0 0 None in
  exists r,
    Graphical.add_all Graphical.NewGraphicalReporter [Some a; Some b; Some c] = Ok r
    /\ Graphical.responses r = stored [b; a]
    /\ Graphical.Report rt (mkWorld r (""%string : Buffer))
       = (Ok None,
          mkWorld r (Sprintln (Time_String rt 1) +:+ Sprintln (Time_String rt 3))).
Proof.
  intros a b c. eexists. split; [reflexivity|]. split; reflexivity.
Qed.

(** C3, where the code departs from it. On a list in ascending order, an
    event whose timestamp equals that of the last element is not inserted
    behind it: [Add] returns and the list is as it was. *)
Theorem Graphical_Add_tie_with_last (x : Response) (xs : list Response) (z : Response) :
  chronological xs ->
  last xs = Some z ->
  timestamp x = timestamp z ->
  Graphical.Add (Graphical.mkGraphicalReporter (stored xs)) (Some x)
    = Ok (Graphical.mkGraphicalReporter (stored xs)).
Proof.
  intros Hs El Et. rewrite (Add_chronological _ _ Hs), El. cbn.
  rewrite decide_True by congruence. reflexivity.
Qed.

Lemma Graphical_Add_tie_with_last_witness :
  let a := mkResponse 200 1 0 0 0 None in
  let b := mkResponse 404 1 0 0 0 None in
  chronological [a] /\ last [a] = Some a /\ timestamp b = timestamp a
  /\ Graphical.Add (Graphical.mkGraphicalReporter (stored [a])) (Some b)
     = Ok (Graphical.mkGraphicalReporter (stored [a])).
Proof.
  intros a b.
  assert (Hs : chronological [a]) by (repeat constructor).
  split; [exact Hs|]. split; [reflexivity|]. split; [reflexivity|].
  exact (Graphical_Add_tie_with_last b [a] a Hs eq_refl eq_refl).
Defined.

(** ** TextReporter *)

(** C2, where the code departs from it. For a positive [n] the reporter
    that [NewTextReporter n] returns is not empty: its slice has length
    [n] and every element is nil. Whatever is added afterwards, [Report]
    counts the nil elements as requests and panics on the first of them
    instead of printing a request count. *)
Theorem Text_NewTextReporter_not_empty
    (n : Z) (evs : list ptr) (rt : Runtime) (W : Type) (H : Writer W) (o : W) :
  0 < n ->
  exists r,
    Text.NewTextReporter n = Ok r
    /\ Text.responses r = replicate (Z.to_nat n) None
    /\ Z.of_nat (length (Text.responses r)) = n
    /\ Text.Report rt (mkWorld (Text.add_all r evs) o)
       = (Panicked NilDereference, mkWorld (Text.add_all r evs) o).
Proof.
  intros Hn. unfold Text.NewTextReporter.
  destruct (Z.ltb_spec n 0) as [?|_]; [lia|].
  eexists. split; [reflexivity|]. cbn [Text.responses].
  split; [reflexivity|]. split; [rewrite length_replicate; lia|].
  apply Text_Report_panics. rewrite responses_add_all. cbn [Text.responses].
  destruct (Z.to_nat n) as [|k] eqn:E; [lia|].
  apply (loop_nil_ptr []).
Qed.

Lemma Text_NewTextReporter_not_empty_witness :
  0 < 1
  /\ exists r,
       Text.NewTextReporter 1 = Ok r
       /\ Text.responses r = replicate (Z.to_nat 1) None
       /\ Z.of_nat (length (Text.responses r)) = 1
       /\ Text.Report example_runtime (mkWorld (Text.add_all r []) (""%string : Buffer))
          = (Panicked NilDereference, mkWorld (Text.add_all r []) (""%string : Buffer)).
Proof.
  split; [lia|].
  apply (Text_NewTextReporter_not_empty 1 [] example_runtime Buffer _ ""%string). lia.
Defined.

(** C4, as amended. [Report] on a reporter that holds no entry (hint 0,
    nothing added) returns no error when the sink accepts the write. The
    divisions by the zero count give NaN, not a failure: the averages of
    bytes out, bytes in and successes are NaN and are printed as such;
    the average time is the [int64] that the conversion of NaN gives, an
    implementation-dependent number, printed as a duration. The text is
    the one stated, with the line [Requests:        0]. *)
Theorem Text_Report_empty (rt : Runtime) (W : Type) (H : Writer W) (o : W) :
  let r := Text.mkTextReporter [] in
  let buf := Text.render rt Text.zero 0 in
  snd (snd (Write o buf)) = None ->
  Text.NewTextReporter 0 = Ok r
  /\ Text.Report rt (mkWorld r o) = (Ok None, mkWorld r (fst (Write o buf)))
  /\ float64_div (float64_of_int (Text.totalTime Text.zero)) (float64_of_int 0) = S754_nan
  /\ Text.avgBytesOut Text.zero 0 = S754_nan
  /\ Text.avgBytesIn Text.zero 0 = S754_nan
  /\ Text.avgSuccess Text.zero 0 = S754_nan
  /\ has_line "Requests:        0" buf
  /\ Text.avgTime rt Text.zero 0 = int64_indefinite rt S754_nan
  /\ buf = "Results: " +:+ nl
           +:+ "Time      (avg): "
           +:+ Duration_String rt (int64_indefinite rt S754_nan) +:+ nl
           +:+ "Bytes out (avg): " +:+ fmt_f rt S754_nan +:+ nl
           +:+ "Bytes in  (avg): " +:+ fmt_f rt S754_nan +:+ nl
           +:+ "Success ratio:   " +:+ fmt_f rt S754_nan +:+ nl
           +:+ "Requests:        0" +:+ nl
           +:+ nl +:+ "Status codes histogram:" +:+ nl
           +:+ nl +:+ "Error set:" +:+ nl.
Proof.
  intros r buf Hacc. subst r buf. split; [reflexivity|]. split.
  - rewrite (Text_Report_run rt _ o Text.zero) by reflexivity.
    change (Z.of_nat (length (Text.responses (Text.mkTextReporter [])))) with 0.
    by rewrite Hacc.
  - repeat (split; [reflexivity|]).
    split; [apply (render_Requests rt Text.zero 0)|].
    split; [reflexivity|].
    rewrite render_layout. cbn [Text.histogram Text.errors Text.zero].
    rewrite range_histogram_empty, range_errors_empty. reflexivity.
Qed.

Lemma Text_Report_empty_witness :
  let r := Text.mkTextReporter [] in
  let buf := Text.render example_runtime Text.zero 0 in
  snd (snd (Write (""%string : Buffer) buf)) = None
  /\ Text.Report example_runtime (mkWorld r (""%string : Buffer))
     = (Ok None, mkWorld r (fst (Write (""%string : Buffer) buf)))
  /\ has_line "Requests:        0" buf
  /\ Text.avgTime example_runtime Text.zero 0 = - 2 ^ 63.
Proof.
  intros r buf.
  assert (Hacc : snd (snd (Write (""%string : Buffer) buf)) = None) by reflexivity.
  split; [exact Hacc|].
  destruct (Text_Report_empty example_runtime Buffer _ ""%string Hacc)
    as (_ & HR & _ & _ & _ & _ & HL & HT & _).
  split; [exact HR|]. split; [exact HL | exact HT].
Defined.

(** C4 as first stated fails for the average time: on a reporter without
    entries, with the conversion of NaN giving the least [int64], the
    average time is that number; the line of the text that shows it is a
    duration, not the text of NaN that the other three averages get. *)
Lemma Text_Report_empty_time_average_is_a_number :
  Text.avgTime example_runtime Text.zero 0 = -9223372036854775808
  /\ Duration_String example_runtime (Text.avgTime example_runtime Text.zero 0)
     <> fmt_f example_runtime S754_nan
  /\ Text.Report example_runtime (mkWorld (Text.mkTextReporter []) (""%string : Buffer))
     = (Ok None,
        mkWorld (Text.mkTextReporter [])
          ("Results: " +:+ nl
             +:+ "Time      (avg): -9223372036854775808ns" +:+ nl
             +:+ "Bytes out (avg): NaN" +:+ nl
             +:+ "Bytes in  (avg): NaN" +:+ nl
             +:+ "Success ratio:   NaN" +:+ nl
             +:+ "Requests:        0" +:+ nl
             +:+ nl +:+ "Status codes histogram:" +:+ nl
             +:+ nl +:+ "Error set:" +:+ nl)).
Proof.
  split; [reflexivity|]. split; [| vm_compute; reflexivity].
  vm_compute. discriminate.
Qed.



(** The float64 value 0.5. *)
Definition one_half : float64 := S754_finite false (2 ^ 52) (-53).

(** C6. The success count is the number of events whose status code lies
    in [200,300); the success ratio is that count divided by the number of
    events, and it is the value on the line [Success ratio:] of the text
    that [Report] writes; for the codes 200, 201, 404, 500 it is 0.5. *)
Theorem Text_success_ratio
    (xs : list Response) (rt : Runtime) (W : Type) (H : Writer W) (o : W) :
  Z.of_nat (length xs) < 2 ^ 64 ->
  let r := Text.add_all (Text.mkTextReporter []) (Some <$> xs) in
  let n := Z.of_nat (length (Text.responses r)) in
  exists t buf,
    Text.loop (Text.responses r) Text.zero = Ok t
    /\ n = Z.of_nat (length xs)
    /\ Text.totalSuccess t = successes xs
    /\ Text.avgSuccess t n = float64_div (float64_of_int (successes xs)) (float64_of_int n)
    /\ (code <$> xs = [200; 201; 404; 500] -> Text.avgSuccess t n = one_half)
    /\ Text.Report rt (mkWorld r o)
       = (Ok (snd (snd (Write o buf))), mkWorld r (fst (Write o buf)))
    /\ has_line
         ("Success ratio:   "
            +:+ fmt_f rt (float64_div (float64_of_int (successes xs))
                                      (float64_of_int (Z.of_nat (length xs)))))
         buf
    /\ (code <$> xs = [200; 201; 404; 500] ->
        has_line ("Success ratio:   " +:+ fmt_f rt one_half) buf).
Proof.
  intros Hlen r n.
  assert (Hr : Text.responses r = Some <$> xs)
    by (unfold r; by rewrite responses_add_all).
  assert (Hn : n = Z.of_nat (length xs)) by (unfold n; by rewrite Hr, length_fmap).
  set (t := foldl Text.tally_event Text.zero xs).
  assert (El : Text.loop (Text.responses r) Text.zero = Ok t)
    by (rewrite Hr; apply loop_events).
  assert (Hs : Text.totalSuccess t = successes xs).
  { unfold t. rewrite totalSuccess_foldl by (cbn; lia).
    cbn [Text.totalSuccess Text.zero].
    apply u64_small. pose proof (successes_bounds xs). lia. }
  assert (Hhalf : code <$> xs = [200; 201; 404; 500] ->
                  float64_div (float64_of_int (successes xs))
                    (float64_of_int (Z.of_nat (length xs))) = one_half).
  { intros Hc.
    destruct xs as [|a [|b [|c [|d [|? ?]]]]]; try discriminate Hc.
    injection Hc as Ha Hb Hc Hd.
    rewrite !successes_cons. unfold Text.successful. rewrite Ha, Hb, Hc, Hd.
    reflexivity. }
  assert (Havg : Text.avgSuccess t n
                 = float64_div (float64_of_int (successes xs))
                     (float64_of_int (Z.of_nat (length xs)))).
  { unfold Text.avgSuccess. by rewrite Hs, Hn. }
  assert (HL : has_line
                 ("Success ratio:   "
                    +:+ fmt_f rt (float64_div (float64_of_int (successes xs))
                                    (float64_of_int (Z.of_nat (length xs)))))
                 (Text.render rt t n)).
  { rewrite <- Havg. apply render_Success_ratio. }
  exists t, (Text.render rt t n).
  split; [exact El|]. split; [exact Hn|]. split; [exact Hs|].
  split; [by rewrite Havg, Hn|].
  split; [intros Hc; by rewrite Havg, (Hhalf Hc)|].
  split; [by apply Text_Report_run|].
  split; [exact HL|].
  intros Hc. rewrite <- (Hhalf Hc). exact HL.
Qed.

Lemma Text_success_ratio_witness :
  let ev c := mkResponse c 0 10 5 7 None in
  let xs := [ev 200; ev 201; ev 404; ev 500] in
  let r := Text.add_all (Text.mkTextReporter []) (Some <$> xs) in
  Z.of_nat (length xs) < 2 ^ 64
  /\ exists t buf,
       Text.loop (Text.responses r) Text.zero = Ok t
       /\ Text.totalSuccess t = 2
       /\ Text.avgSuccess t 4 = one_half
       /\ Text.Report example_runtime (mkWorld r (""%string : Buffer))
          = (Ok (snd (snd (Write (""%string : Buffer) buf))),
             mkWorld r (fst (Write (""%string : Buffer) buf)))
       /\ has_line ("Success ratio:   " +:+ fmt_f example_runtime one_half) buf.
Proof.
  intros ev xs r.
  assert (Hlen : Z.of_nat (length xs) < 2 ^ 64) by (cbn; lia).
  split; [exact Hlen|].
  destruct (Text_success_ratio xs example_runtime Buffer _ ""%string Hlen)
    as (t & buf & E & _ & Hs & _ & Hhalf & HR & _ & HL).
  exists t, buf. split; [exact E|]. split; [exact Hs|].
  split; [exact (Hhalf eq_refl)|]. split; [exact HR | exact (HL eq_refl)].
Defined.

(** C7. Three events with the error texts timeout, timeout and refused:
    the error set is exactly those two texts, and the text that [Report]
    writes ends with the header of the error set followed by two lines,
    one per text, in the order the run-time system visits them. *)
Theorem Text_error_set_dedup
    (xs : list Response) (rt : Runtime) (W : Type) (H : Writer W) (o : W) :
  err <$> xs = [Some "timeout"; Some "timeout"; Some "refused"] ->
  let r := Text.add_all (Text.mkTextReporter []) (Some <$> xs) in
  exists t buf before lines,
    Text.loop (Text.responses r) Text.zero = Ok t
    /\ Text.errors t = {[ "timeout"; "refused" ]}
    /\ Text.Report rt (mkWorld r o)
       = (Ok (snd (snd (Write o buf))), mkWorld r (fst (Write o buf)))
    /\ buf = before +:+ Sprintln (nl +:+ "Error set:") +:+ lines
    /\ (lines = "timeout" +:+ nl +:+ "refused" +:+ nl
        \/ lines = "refused" +:+ nl +:+ "timeout" +:+ nl).
Proof.
  intros Herr r.
  assert (Hr : Text.responses r = Some <$> xs).
  { subst r. by rewrite responses_add_all. }
  set (t := foldl Text.tally_event Text.zero xs).
  assert (El : Text.loop (Text.responses r) Text.zero = Ok t).
  { rewrite Hr. apply loop_events. }
  assert (He : Text.errors t = {[ "timeout"; "refused" ]}).
  { subst t. rewrite errors_foldl.
    destruct xs as [|a [|b [|c [|? ?]]]]; try discriminate Herr.
    injection Herr as Ha Hb Hc.
    cbn [omap list_omap]. rewrite Ha, Hb, Hc. cbn [list_to_set Text.errors Text.zero].
    apply set_eq. intros s.
    rewrite !elem_of_union, !elem_of_singleton, elem_of_empty. tauto. }
  destruct (render_error_set rt t (Z.of_nat (length (Text.responses r))))
    as (before & Hb).
  exists t, (Text.render rt t (Z.of_nat (length (Text.responses r)))), before,
    (foldl Text.error_line "" (range_errors rt (Text.errors t))).
  split; [exact El|]. split; [exact He|].
  split; [by apply Text_Report_run|]. split; [exact Hb|].
  pose proof (range_errors_perm rt (Text.errors t)) as Hp.
  rewrite He in Hp |- *.
  rewrite elements_union_singleton in Hp
    by (rewrite elem_of_singleton; discriminate).
  rewrite elements_singleton in Hp.
  symmetry in Hp. apply Permutation_length_2_inv in Hp as [-> | ->].
  - left. reflexivity.
  - right. reflexivity.
Qed.

Lemma Text_error_set_dedup_witness :
  let ev c e := mkResponse c 0 10 5 7 (Some e) in
  let xs := [ev 0 "timeout"%string; ev 0 "timeout"%string; ev 0 "refused"%string] in
  let r := Text.add_all (Text.mkTextReporter []) (Some <$> xs) in
  err <$> xs = [Some "timeout"%string; Some "timeout"%string; Some "refused"%string]
  /\ exists t, Text.loop (Text.responses r) Text.zero = Ok t
               /\ Text.errors t = {[ "timeout"%string; "refused"%string ]}.
Proof.
  intros ev xs r.
  assert (He : err <$> xs
               = [Some "timeout"%string; Some "timeout"%string; Some "refused"%string])
    by reflexivity.
  split; [exact He|].
  destruct (Text_error_set_dedup xs example_runtime Buffer _ ""%string He)
    as (t & _ & _ & _ & El & Hs & _).
  exists t. split; [exact El | exact Hs].
Defined.

(** C8. [Report] leaves the reporter as it was, for both reporters:
    whatever the sink does with the write, and also when [Report]
    panics, the stored collection with every event in it is the same
    after the call as before. *)
Theorem Report_keeps_reporter_state (rt : Runtime) (W : Type) (H : Writer W) :
  (forall w : World Text.TextReporter W,
     rep (snd (Text.Report rt w)) = rep w)
  /\ (forall w : World Graphical.GraphicalReporter W,
        rep (snd (Graphical.Report rt w)) = rep w).
Proof.
  split.
  - exact (Text_Report_keeps_reporter rt).
  - exact (Report_keeps_reporter rt).
Qed.

(** C9. The success count of [Report] looks at the status codes only. An
    event with an error and a code in [200,300), wherever it stands among
    the added events, raises the count by one and puts its message in the
    error set; and any events with the same status codes, whatever their
    [err] fields hold, give the same count and the same success ratio,
    which is the one on the line [Success ratio:] of the text. *)
Theorem Text_success_ignores_err
    (l1 l2 : list Response) (x : Response) (msg : string)
    (rt : Runtime) (W : Type) (H : Writer W) (o : W) :
  err x = Some msg ->
  200 <= code x < 300 ->
  let r := Text.add_all (Text.mkTextReporter []) (Some <$> l1 ++ x :: l2) in
  let r0 := Text.add_all (Text.mkTextReporter []) (Some <$> l1 ++ l2) in
  let n := Z.of_nat (length (Text.responses r)) in
  exists t t0 buf,
    Text.loop (Text.responses r) Text.zero = Ok t
    /\ Text.loop (Text.responses r0) Text.zero = Ok t0
    /\ Text.totalSuccess t = u64 (Text.totalSuccess t0 + 1)
    /\ Text.errors t = {[ msg ]} ∪ Text.errors t0
    /\ (forall ys : list Response,
          code <$> ys = code <$> (l1 ++ x :: l2) ->
          exists t',
            Text.loop
              (Text.responses (Text.add_all (Text.mkTextReporter []) (Some <$> ys)))
              Text.zero = Ok t'
            /\ Text.totalSuccess t' = Text.totalSuccess t
            /\ Text.avgSuccess t' (Z.of_nat (length ys)) = Text.avgSuccess t n)
    /\ Text.Report rt (mkWorld r o)
       = (Ok (snd (snd (Write o buf))), mkWorld r (fst (Write o buf)))
    /\ has_line
         ("Success ratio:   "
            +:+ fmt_f rt (float64_div (float64_of_int (Text.totalSuccess t))
                                      (float64_of_int n)))
         buf.
Proof.
  intros He Hc r r0 n.
  assert (Hr : Text.responses r = Some <$> l1 ++ x :: l2)
    by (unfold r; by rewrite responses_add_all).
  assert (Hr0 : Text.responses r0 = Some <$> l1 ++ l2)
    by (unfold r0; by rewrite responses_add_all).
  assert (Hn : n = Z.of_nat (length (l1 ++ x :: l2)))
    by (unfold n; by rewrite Hr, length_fmap).
  assert (Hx : Text.successful x = true) by (by apply successful_spec).
  set (t := foldl Text.tally_event Text.zero (l1 ++ x :: l2)).
  set (t0 := foldl Text.tally_event Text.zero (l1 ++ l2)).
  exists t, t0, (Text.render rt t n).
  split; [rewrite Hr; apply loop_events|].
  split; [rewrite Hr0; apply loop_events|].
  split; [| split; [| split; [| split]]].
  - unfold t, t0. rewrite !totalSuccess_foldl by (cbn; lia).
    cbn [Text.totalSuccess Text.zero].
    rewrite u64_add_l, !successes_app, successes_cons, Hx. f_equal. lia.
  - unfold t, t0. rewrite !errors_foldl. cbn [Text.errors Text.zero].
    rewrite !omap_app. cbn [omap list_omap]. rewrite He.
    rewrite !list_to_set_app_L. cbn [list_to_set].
    apply set_eq. intros s.
    rewrite !elem_of_union, !elem_of_singleton, elem_of_empty. tauto.
  - intros ys Hys. exists (foldl Text.tally_event Text.zero ys).
    split; [rewrite responses_add_all; apply loop_events|].
    assert (Ht : Text.totalSuccess (foldl Text.tally_event Text.zero ys)
                 = Text.totalSuccess t).
    { unfold t. rewrite !totalSuccess_foldl by (cbn; lia).
      by rewrite (successes_codes _ _ Hys). }
    split; [exact Ht|].
    unfold Text.avgSuccess. rewrite Ht, Hn. do 3 f_equal.
    rewrite <- (length_fmap code ys), Hys. by rewrite length_fmap.
  - apply Text_Report_run. rewrite Hr. apply loop_events.
  - apply (render_Success_ratio rt t n).
Qed.

Lemma Text_success_ignores_err_witness :
  let a := mkResponse 404 0 10 5 7 None in
  let x := mkResponse 200 0 10 5 7 (Some "timeout"%string) in
  let b := mkResponse 201 0 10 5 7 None in
  let r := Text.add_all (Text.mkTextReporter []) (Some <$> [a] ++ x :: [b]) in
  err x = Some "timeout"%string
  /\ 200 <= code x < 300
  /\ exists t,
       Text.loop (Text.responses r) Text.zero = Ok t
       /\ Text.totalSuccess t = 2
       /\ "timeout"%string ∈ Text.errors t.
Proof.
  intros a x b r.
  assert (He : err x = Some "timeout"%string) by reflexivity.
  assert (Hc : 200 <= code x < 300) by (cbn; lia).
  split; [exact He|]. split; [exact Hc|].
  destruct (Text_success_ignores_err [a] [b] x "timeout"%string
              example_runtime Buffer _ ""%string He Hc)
    as (t & t0 & buf & Et & Et0 & Hs & Hin & _).
  exists t. split; [exact Et|]. split.
  - rewrite Hs. injection Et0 as <-. reflexivity.
  - rewrite Hin. apply elem_of_union. left. by apply elem_of_singleton.
Defined.

(** * Further properties of the reporters *)

(** ** GraphicalReporter *)

Section Graphical_more.

Import Graphical.

(** An ascending list is the events not later than [x] followed by the
    later ones. *)
Lemma chronological_split x xs :
  chronological xs ->
  xs = filter (fun y => timestamp y <= timestamp x) xs
         ++ filter (fun y => timestamp x < timestamp y) xs.
Proof.
  induction 1 as [|y xs Hs IH Hy]; [reflexivity|].
  destruct (decide (timestamp y <= timestamp x)) as [Hle|Hgt].
  - rewrite filter_cons_True by exact Hle.
    rewrite filter_cons_False by lia. cbn. by rewrite <- IH.
  - assert (Hall : Forall (fun z => timestamp x < timestamp z) (y :: xs)).
    { constructor; [lia|].
      eapply Forall_impl; [exact Hy | unfold no_later; cbn; lia]. }
    rewrite (filter_all _ _ Hall), filter_none; [reflexivity|].
    eapply Forall_impl; [exact Hall | cbn; lia].
Qed.

Lemma scan_inserts_at_most_once x xs :
  exists ys,
    scan (Some x) (stored xs) = Ok (stored ys)
    /\ (ys = xs \/ exists l1 l2, xs = l1 ++ l2 /\ ys = l1 ++ x :: l2).
Proof.
  induction xs as [|y xs (ys & E & Hys)].
  - exists []. split; [reflexivity | by left].
  - rewrite scan_stored_cons.
    destruct (Before (timestamp x) (timestamp y)).
    + exists (x :: y :: xs). split; [reflexivity|].
      right. by exists [], (y :: xs).
    + rewrite E. exists (y :: ys). split; [reflexivity|].
      destruct Hys as [->|(l1 & l2 & -> & ->)]; [by left|].
      right. by exists (y :: l1), l2.
Qed.

Lemma add_all_step r e evs r' :
  Add r (Some e) = Ok r' ->
  add_all r (Some <$> e :: evs) = add_all r' (Some <$> evs).
Proof. intros E. cbn. by rewrite E. Qed.

Lemma add_all_submseteq evs xs :
  chronological xs ->
  exists ys,
    add_all (mkGraphicalReporter (stored xs)) (Some <$> evs)
      = Ok (mkGraphicalReporter (stored ys))
    /\ chronological ys /\ ys ⊆+ xs ++ evs.
Proof.
  revert xs. induction evs as [|e evs IH]; intros xs Hs.
  - exists xs. split; [reflexivity|]. split; [exact Hs|]. by rewrite app_nil_r.
  - cbn. rewrite (Add_chronological _ _ Hs). cbn.
    case_decide.
    + destruct (IH xs Hs) as (ys & E & Hys & Hsub).
      exists ys. split; [exact E|]. split; [exact Hys|].
      etransitivity; [exact Hsub|].
      apply submseteq_app; [reflexivity | by apply submseteq_cons].
    + destruct (IH (place e xs) (chronological_place e xs Hs)) as (ys & E & Hys & Hsub).
      exists ys. split; [exact E|]. split; [exact Hys|].
      etransitivity; [exact Hsub|].
      apply Permutation_submseteq.
      rewrite (place_perm e xs). by rewrite <- Permutation_middle.
Qed.

Lemma add_all_distinct evs xs :
  chronological xs ->
  NoDup (timestamp <$> (xs ++ evs)) ->
  exists ys,
    add_all (mkGraphicalReporter (stored xs)) (Some <$> evs)
      = Ok (mkGraphicalReporter (stored ys))
    /\ chronological ys /\ ys ≡ₚ xs ++ evs.
Proof.
  revert xs. induction evs as [|e evs IH]; intros xs Hs Hnd.
  - exists xs. split; [reflexivity|]. split; [exact Hs|]. by rewrite app_nil_r.
  - cbn. rewrite (Add_chronological _ _ Hs). cbn.
    rewrite decide_False.
    + assert (Hp : place e xs ++ evs ≡ₚ xs ++ e :: evs).
      { rewrite (place_perm e xs). by rewrite <- Permutation_middle. }
      destruct (IH (place e xs) (chronological_place e xs Hs)) as (ys & E & Hys & Hperm).
      { by rewrite Hp. }
      exists ys. split; [exact E|]. split; [exact Hys|]. by rewrite Hperm.
    + destruct (last xs) as [z|] eqn:El; [| discriminate].
      intros [= Ez]. apply last_Some in El as [l' ->].
      rewrite <- !app_assoc, !fmap_app in Hnd.
      apply NoDup_app in Hnd as (_ & _ & Hnd).
      cbn in Hnd. rewrite Ez in Hnd.
      apply NoDup_cons in Hnd as [Hnotin _].
      apply Hnotin. apply elem_of_cons. by left.
Qed.

Lemma add_all_ascending evs xs :
  StronglySorted (fun a b => timestamp a < timestamp b) (xs ++ evs) ->
  add_all (mkGraphicalReporter (stored xs)) (Some <$> evs)
    = Ok (mkGraphicalReporter (stored (xs ++ evs))).
Proof.
  revert xs. induction evs as [|e evs IH]; intros xs Hs.
  - by rewrite app_nil_r.
  - assert (EA : Add (mkGraphicalReporter (stored xs)) (Some e)
                 = Ok (mkGraphicalReporter (stored (xs ++ [e])))).
    { destruct xs as [|y xs]; [reflexivity|].
      destruct (last (y :: xs)) as [z|] eqn:El;
        [| apply last_None in El; discriminate].
      rewrite (Add_stored_cons _ _ _ _ El). unfold Before.
      assert (timestamp z < timestamp e) as ->%Z.ltb_lt; [| reflexivity].
      apply (StronglySorted_app_1_elem_of _ _ _ _ _ Hs).
      - by apply last_Some_elem_of.
      - apply elem_of_cons. by left. }
    rewrite (add_all_step _ _ _ _ EA), (IH (xs ++ [e]));
      rewrite <- app_assoc; [reflexivity | exact Hs].
Qed.

Lemma add_all_descending evs xs :
  StronglySorted (fun a b => timestamp a < timestamp b) (rev evs ++ xs) ->
  add_all (mkGraphicalReporter (stored xs)) (Some <$> evs)
    = Ok (mkGraphicalReporter (stored (rev evs ++ xs))).
Proof.
  revert xs. induction evs as [|e evs IH]; intros xs Hs; [reflexivity|].
  cbn [rev] in Hs. rewrite <- app_assoc in Hs. cbn [app] in Hs.
  assert (EA : Add (mkGraphicalReporter (stored xs)) (Some e)
               = Ok (mkGraphicalReporter (stored (e :: xs)))).
  { destruct xs as [|y xs]; [reflexivity|].
    destruct (last (y :: xs)) as [z|] eqn:El;
      [| apply last_None in El; discriminate].
    rewrite (Add_stored_cons _ _ _ _ El). unfold Before, After.
    apply StronglySorted_app in Hs as (_ & _ & Hs). apply StronglySorted_inv in Hs as [_ He].
    assert (Hez : timestamp e < timestamp z).
    { apply last_Some_elem_of in El. eapply Forall_forall in He; [exact He | exact El]. }
    assert (Hey : timestamp e < timestamp y) by (by apply Forall_cons in He as [? _]).
    destruct (Z.ltb_spec (timestamp z) (timestamp e)); [lia|].
    destruct (Z.ltb_spec (timestamp e) (timestamp y)); [reflexivity | lia]. }
  rewrite (add_all_step _ _ _ _ EA), (IH (e :: xs) Hs).
  cbn [rev]. by rewrite <- app_assoc.
Qed.

End Graphical_more.

(** X1. Whatever events are added to a new reporter, in whatever order,
    the list is in ascending order of timestamps and holds added events
    only, each at most as often as it was added; [Report] prints the list
    front to back in one write and returns what the sink returns. *)
Theorem Graphical_list_ascending
    (evs : list Response) (rt : Runtime) (W : Type) (H : Writer W) (o : W) :
  exists ys,
    Graphical.add_all Graphical.NewGraphicalReporter (Some <$> evs)
      = Ok (Graphical.mkGraphicalReporter (stored ys))
    /\ chronological ys
    /\ ys ⊆+ evs
    /\ Graphical.Report rt (mkWorld (Graphical.mkGraphicalReporter (stored ys)) o)
       = (Ok (snd (snd (Write o (timestamp_lines rt ys)))),
          mkWorld (Graphical.mkGraphicalReporter (stored ys))
                  (fst (Write o (timestamp_lines rt ys)))).
Proof.
  destruct (add_all_submseteq evs []) as (ys & E & Hs & Hsub); [constructor|].
  exists ys. split; [exact E|]. split; [exact Hs|]. split; [exact Hsub|].
  apply Report_stored.
Qed.

(** X2. On a list in ascending order, an event whose timestamp is not the
    one of the last element is inserted once, behind every stored event
    that is not later (those of equal timestamp included) and in front of
    every later one; the list stays in ascending order. *)
Theorem Graphical_Add_inserts_in_place (x : Response) (xs : list Response) :
  chronological xs ->
  timestamp <$> last xs <> Some (timestamp x) ->
  exists l1 l2,
    xs = l1 ++ l2
    /\ Forall (fun y => timestamp y <= timestamp x) l1
    /\ Forall (fun y => timestamp x < timestamp y) l2
    /\ Graphical.Add (Graphical.mkGraphicalReporter (stored xs)) (Some x)
       = Ok (Graphical.mkGraphicalReporter (stored (l1 ++ x :: l2)))
    /\ chronological (l1 ++ x :: l2).
Proof.
  intros Hs Hne.
  exists (filter (fun y => timestamp y <= timestamp x) xs),
         (filter (fun y => timestamp x < timestamp y) xs).
  split; [by apply chronological_split|].
  split; [apply Forall_forall; by intros y [Hy _]%list_elem_of_filter|].
  split; [apply Forall_forall; by intros y [Hy _]%list_elem_of_filter|].
  split.
  - rewrite (Add_chronological _ _ Hs). by rewrite decide_False.
  - by apply chronological_place.
Qed.

Lemma Graphical_Add_inserts_in_place_witness :
  let ev c t := mkResponse c t 0 0 0 None in
  let xs := [ev 1 1; ev 2 2; ev 3 2; ev 4 5] in
  chronological xs
  /\ timestamp <$> last xs <> Some (timestamp (ev 9 2))
  /\ Graphical.Add (Graphical.mkGraphicalReporter (stored xs)) (Some (ev 9 2))
     = Ok (Graphical.mkGraphicalReporter (stored [ev 1 1; ev 2 2; ev 3 2; ev 9 2; ev 4 5])).
Proof.
  intros ev xs.
  assert (Hs : chronological xs).
  { unfold chronological, no_later, xs. repeat constructor; cbn; lia. }
  assert (Hne : timestamp <$> last xs <> Some (timestamp (ev 9 2))) by discriminate.
  split; [exact Hs|]. split; [exact Hne|].
  destruct (Graphical_Add_inserts_in_place (ev 9 2) xs Hs Hne)
    as (l1 & l2 & _ & _ & _ & _ & _).
  reflexivity.
Defined.

(** X3. When the added events have pairwise distinct timestamps none is
    lost: the list is the added events sorted by timestamp. *)
Theorem Graphical_distinct_timestamps_sorted (evs : list Response) :
  NoDup (timestamp <$> evs) ->
  exists ys,
    Graphical.add_all Graphical.NewGraphicalReporter (Some <$> evs)
      = Ok (Graphical.mkGraphicalReporter (stored ys))
    /\ chronological ys
    /\ ys ≡ₚ evs.
Proof.
  intros Hnd. apply (add_all_distinct evs []); [constructor | exact Hnd].
Qed.

Lemma Graphical_distinct_timestamps_sorted_witness :
  let ev t := mkResponse 200 t 0 0 0 None in
  NoDup (timestamp <$> [ev 3; ev 1; ev 2])
  /\ exists ys,
       Graphical.add_all Graphical.NewGraphicalReporter (Some <$> [ev 3; ev 1; ev 2])
         = Ok (Graphical.mkGraphicalReporter (stored ys))
       /\ chronological ys
       /\ ys ≡ₚ [ev 3; ev 1; ev 2].
Proof.
  intros ev.
  assert (Hnd : NoDup (timestamp <$> [ev 3; ev 1; ev 2])).
  { cbn. repeat constructor; rewrite ?elem_of_cons, ?elem_of_nil; intros Hx;
      repeat destruct Hx as [Hx|Hx]; try discriminate Hx; exact Hx. }
  split; [exact Hnd|].
  exact (Graphical_distinct_timestamps_sorted [ev 3; ev 1; ev 2] Hnd).
Defined.

(** X4. [Add] of an event never removes or moves a stored event, in
    whatever order the list is: the list is as it was, or it is the old
    list with the new event put in at one position. *)
Theorem Graphical_Add_keeps_stored (x : Response) (xs : list Response) :
  exists ys,
    Graphical.Add (Graphical.mkGraphicalReporter (stored xs)) (Some x)
      = Ok (Graphical.mkGraphicalReporter (stored ys))
    /\ (ys = xs \/ exists l1 l2, xs = l1 ++ l2 /\ ys = l1 ++ x :: l2).
Proof.
  destruct xs as [|y xs].
  - exists [x]. split; [reflexivity|]. right. by exists [], [].
  - destruct (last (y :: xs)) as [z|] eqn:El;
      [| apply last_None in El; discriminate].
    rewrite (Add_stored_cons _ _ _ _ El).
    destruct (Before (timestamp z) (timestamp x)).
    { exists ((y :: xs) ++ [x]). split; [reflexivity|].
      right. exists (y :: xs), []. by rewrite app_nil_r. }
    destruct (After (timestamp y) (timestamp x)).
    { exists (x :: y :: xs). split; [reflexivity|]. right. by exists [], (y :: xs). }
    destruct (scan_inserts_at_most_once x (y :: xs)) as (ys & E & Hys).
    rewrite E. exists ys. split; [reflexivity | exact Hys].
Qed.

(** X5. Events that arrive with strictly increasing timestamps are each
    appended at the back: the list is the arrival order. *)
Theorem Graphical_increasing_arrivals (evs : list Response) :
  StronglySorted (fun a b => timestamp a < timestamp b) evs ->
  Graphical.add_all Graphical.NewGraphicalReporter (Some <$> evs)
    = Ok (Graphical.mkGraphicalReporter (stored evs)).
Proof. intros Hs. exact (add_all_ascending evs [] Hs). Qed.

Lemma Graphical_increasing_arrivals_witness :
  let ev t := mkResponse 200 t 0 0 0 None in
  StronglySorted (fun a b => timestamp a < timestamp b) [ev 1; ev 4; ev 6]
  /\ Graphical.add_all Graphical.NewGraphicalReporter (Some <$> [ev 1; ev 4; ev 6])
     = Ok (Graphical.mkGraphicalReporter (stored [ev 1; ev 4; ev 6])).
Proof.
  intros ev.
  assert (Hs : StronglySorted (fun a b => timestamp a < timestamp b) [ev 1; ev 4; ev 6])
    by (repeat constructor; cbn; lia).
  split; [exact Hs|].
  exact (Graphical_increasing_arrivals [ev 1; ev 4; ev 6] Hs).
Defined.

(** X6. Events that arrive with strictly decreasing timestamps are each
    put at the front: the list is the arrival order reversed. *)
Theorem Graphical_decreasing_arrivals (evs : list Response) :
  StronglySorted (fun a b => timestamp b < timestamp a) evs ->
  Graphical.add_all Graphical.NewGraphicalReporter (Some <$> evs)
    = Ok (Graphical.mkGraphicalReporter (stored (rev evs))).
Proof.
  intros Hs.
  rewrite <- (app_nil_r (rev evs)). apply (add_all_descending evs []).
  rewrite app_nil_r. clear -Hs.
  induction Hs as [|a l Hs IH Ha]; [constructor|].
  cbn [rev]. apply StronglySorted_app_2; [| exact IH | repeat constructor].
  intros y z Hy ->%list_elem_of_singleton.
  rewrite list_elem_of_In, <- in_rev, <- list_elem_of_In in Hy.
  eapply Forall_forall in Ha; [exact Ha | exact Hy].
Qed.

Lemma Graphical_decreasing_arrivals_witness :
  let ev t := mkResponse 200 t 0 0 0 None in
  StronglySorted (fun a b => timestamp b < timestamp a) [ev 6; ev 4; ev 1]
  /\ Graphical.add_all Graphical.NewGraphicalReporter (Some <$> [ev 6; ev 4; ev 1])
     = Ok (Graphical.mkGraphicalReporter (stored (rev [ev 6; ev 4; ev 1]))).
Proof.
  intros ev.
  assert (Hs : StronglySorted (fun a b => timestamp b < timestamp a) [ev 6; ev 4; ev 1])
    by (repeat constructor; cbn; lia).
  split; [exact Hs|].
  exact (Graphical_decreasing_arrivals [ev 6; ev 4; ev 1] Hs).
Defined.

(** X7. A nil pointer is accepted by [Add] on an empty list and stored.
    From then on [Report] panics before it writes anything, and so does
    every [Add]; on a list that holds events, [Add] of a nil pointer
    panics and stores nothing. *)
Theorem Graphical_nil_pointer :
  Graphical.Add Graphical.NewGraphicalReporter None
    = Ok (Graphical.mkGraphicalReporter [Resp None])
  /\ (forall p : ptr,
        Graphical.Add (Graphical.mkGraphicalReporter [Resp None]) p
          = Panicked NilDereference)
  /\ (forall (rt : Runtime) (W : Type) (H : Writer W) (o : W),
        Graphical.Report rt (mkWorld (Graphical.mkGraphicalReporter [Resp None]) o)
          = (Panicked NilDereference,
             mkWorld (Graphical.mkGraphicalReporter [Resp None]) o))
  /\ (forall (x : Response) (xs : list Response),
        Graphical.Add (Graphical.mkGraphicalReporter (stored (x :: xs))) None
          = Panicked NilDereference).
Proof.
  split; [reflexivity|]. split; [intros p; reflexivity|].
  split; [intros rt W H o; reflexivity|].
  intros x xs. unfold Graphical.Add. cbn [Graphical.responses].
  rewrite Back_stored.
  destruct (last (x :: xs)) as [z|] eqn:El;
    [reflexivity | apply last_None in El; discriminate].
Qed.

(** ** TextReporter *)

Section Text_more.

Import Text.

(** The number of events with status code [c]. *)
Definition occurrences (c : Z) (xs : list Response) : Z :=
  Z.of_nat (length (filter (fun x => code x = c) xs)).

Lemma occurrences_cons c x xs :
  occurrences c (x :: xs) = (if decide (code x = c) then 1 else 0) + occurrences c xs.
Proof.
  unfold occurrences. case_decide as Hc.
  - rewrite filter_cons_True by exact Hc. cbn [length]. lia.
  - rewrite filter_cons_False by exact Hc. lia.
Qed.

Lemma occurrences_bounds c xs : 0 <= occurrences c xs <= Z.of_nat (length xs).
Proof. unfold occurrences. pose proof (length_filter (fun x => code x = c) xs). lia. Qed.

Lemma occurrences_app c xs ys :
  occurrences c (xs ++ ys) = occurrences c xs + occurrences c ys.
Proof. unfold occurrences. rewrite filter_app, length_app. lia. Qed.


(** The count the loop keeps for a status code. *)
Lemma histogram_foldl xs t c :
  histogram (foldl tally_event t xs) !! c
    = if decide (occurrences c xs = 0) then histogram t !! c
      else Some (u64 (default 0 (histogram t !! c) + occurrences c xs)).
Proof.
  revert t. induction xs as [|x xs IH]; intros t; [reflexivity|].
  cbn [foldl]. rewrite IH, histogram_tally_event, occurrences_cons.
  pose proof (occurrences_bounds c xs) as Hb.
  destruct (decide (code x = c)) as [Hc|Hc].
  - rewrite (decide_False (P := 1 + _ = 0)) by lia.
    case_decide as Ho.
    + rewrite Ho. reflexivity.
    + cbn [default id]. rewrite u64_add_l. f_equal. f_equal. lia.
  - rewrite Z.add_0_l. reflexivity.
Qed.

Definition sum_of (f : Response -> Z) (xs : list Response) : Z :=
  foldr (fun x s => f x + s) 0 xs.

(** A total that the loop body updates by a wrapped addition is the
    wrapped sum. *)
Lemma wrapped_sum_foldl (proj : totals -> Z) (f : Response -> Z) (w : Z -> Z) :
  (forall t x, proj (tally_event t x) = w (proj t + f x)) ->
  (forall a b, w (w a + b) = w (a + b)) ->
  forall xs t, w (proj t) = proj t ->
  proj (foldl tally_event t xs) = w (proj t + sum_of f xs).
Proof.
  intros Hstep Hw. induction xs as [|x xs IH]; intros t Ht.
  - cbn. by rewrite Z.add_0_r.
  - cbn [foldl sum_of foldr]. rewrite IH, Hstep.
    + rewrite Hw. f_equal. fold (sum_of f xs). lia.
    + rewrite Hstep. pose proof (Hw (proj t + f x) 0) as Hw0.
      rewrite !Z.add_0_r in Hw0. exact Hw0.
Qed.

Lemma u64_idemp z : u64 (u64 z) = u64 z.
Proof. unfold u64. apply Z.mod_mod. lia. Qed.






End Text_more.

(** X8. A reporter made with hint 0 to which events are added: [Report]
    does not panic, writes once, returns what the sink returns, and the
    text has a line with the number of [Add] calls as the request count. *)
Theorem Text_Report_after_adds
    (xs : list Response) (rt : Runtime) (W : Type) (H : Writer W) (o : W) :
  exists r0 buf,
    Text.NewTextReporter 0 = Ok r0
    /\ Text.Report rt (mkWorld (Text.add_all r0 (Some <$> xs)) o)
       = (Ok (snd (snd (Write o buf))),
          mkWorld (Text.add_all r0 (Some <$> xs)) (fst (Write o buf)))
    /\ has_line ("Requests:        " +:+ fmt_d (Z.of_nat (length xs))) buf.
Proof.
  exists (Text.mkTextReporter []).
  set (r := Text.add_all (Text.mkTextReporter []) (Some <$> xs)).
  assert (Hr : Text.responses r = Some <$> xs)
    by (unfold r; by rewrite responses_add_all).
  assert (El : Text.loop (Text.responses r) Text.zero
               = Ok (foldl Text.tally_event Text.zero xs))
    by (rewrite Hr; apply loop_events).
  eexists. split; [reflexivity|]. split; [by apply Text_Report_run|].
  rewrite Hr, length_fmap. apply render_Requests.
Qed.

(** X9. The histogram has an entry for exactly the status codes that
    occur, and the entry is the number of events with that code. *)
Theorem Text_histogram_exact (xs : list Response) :
  Z.of_nat (length xs) < 2 ^ 64 ->
  exists t,
    Text.loop (Text.responses (Text.add_all (Text.mkTextReporter []) (Some <$> xs)))
      Text.zero = Ok t
    /\ forall c,
         Text.histogram t !! c
           = if decide (occurrences c xs = 0) then None else Some (occurrences c xs).
Proof.
  intros Hlen. exists (foldl Text.tally_event Text.zero xs). split.
  - rewrite responses_add_all. apply loop_events.
  - intros c. rewrite histogram_foldl. cbn [Text.histogram Text.zero].
    rewrite lookup_empty. cbn [default]. case_decide; [reflexivity|].
    rewrite Z.add_0_l, u64_small; [reflexivity|].
    pose proof (occurrences_bounds c xs). lia.
Qed.

Lemma Text_histogram_exact_witness :
  let ev c := mkResponse c 0 10 5 7 None in
  let xs := [ev 200; ev 200; ev 404; ev 500] in
  Z.of_nat (length xs) < 2 ^ 64
  /\ exists t,
       Text.loop (Text.responses (Text.add_all (Text.mkTextReporter []) (Some <$> xs)))
         Text.zero = Ok t
       /\ Text.histogram t !! 200 = Some 2
       /\ Text.histogram t !! 404 = Some 1
       /\ Text.histogram t !! 500 = Some 1
       /\ Text.histogram t !! 201 = None.
Proof.
  intros ev xs.
  assert (Hlen : Z.of_nat (length xs) < 2 ^ 64) by (cbn; lia).
  split; [exact Hlen|].
  destruct (Text_histogram_exact xs Hlen) as (t & E & Hh).
  exists t. split; [exact E|].
  split; [exact (Hh 200)|]. split; [exact (Hh 404)|].
  split; [exact (Hh 500) | exact (Hh 201)].
Defined.



(** X11. The three totals are the sums over the events, wrapped to their
    machine type: an overflow is not detected. *)
Theorem Text_totals_are_wrapped_sums (xs : list Response) :
  exists t,
    Text.loop (Text.responses (Text.add_all (Text.mkTextReporter []) (Some <$> xs)))
      Text.zero = Ok t
    /\ Text.totalTime t = i64 (sum_of timing xs)
    /\ Text.totalBytesOut t = u64 (sum_of bytesOut xs)
    /\ Text.totalBytesIn t = u64 (sum_of bytesIn xs).
Proof.
  exists (foldl Text.tally_event Text.zero xs).
  split; [rewrite responses_add_all; apply loop_events|].
  split; [| split].
  - apply (wrapped_sum_foldl Text.totalTime timing i64);
      [reflexivity | apply i64_add_l | reflexivity].
  - apply (wrapped_sum_foldl Text.totalBytesOut bytesOut u64);
      [reflexivity | apply u64_add_l | reflexivity].
  - apply (wrapped_sum_foldl Text.totalBytesIn bytesIn u64);
      [reflexivity | apply u64_add_l | reflexivity].
Qed.


(** X13. [Add] accepts a nil pointer. Once the slice holds one, [Report]
    panics and nothing is written to the sink, whatever else was added. *)
Theorem Text_nil_pointer
    (r : Text.TextReporter) (evs : list ptr) (rt : Runtime)
    (W : Type) (H : Writer W) (o : W) :
  None ∈ evs ->
  Text.Report rt (mkWorld (Text.add_all r evs) o)
    = (Panicked NilDereference, mkWorld (Text.add_all r evs) o).
Proof.
  intros Hin. apply Text_Report_panics. rewrite responses_add_all.
  apply list_elem_of_split in Hin as (l1 & l2 & ->).
  rewrite app_assoc. apply loop_nil_ptr.
Qed.

Lemma Text_nil_pointer_witness :
  let e := mkResponse 200 0 10 5 7 None in
  None ∈ [Some e; None]
  /\ Text.Report example_runtime
       (mkWorld (Text.add_all (Text.mkTextReporter []) [Some e; None]) (""%string : Buffer))
     = (Panicked NilDereference,
        mkWorld (Text.add_all (Text.mkTextReporter []) [Some e; None]) (""%string : Buffer)).
Proof.
  intros e.
  assert (Hin : None ∈ [Some e; None]) by (apply elem_of_cons; right; apply elem_of_cons; by left).
  split; [exact Hin|].
  exact (Text_nil_pointer (Text.mkTextReporter []) [Some e; None]
           example_runtime Buffer _ ""%string Hin).
Defined.

(** X14. Events that all carry the timestamp of the first one added: only
    the first is stored, each of the others ties with the last element and
    is left out. *)
Theorem Graphical_equal_timestamps_keep_first (e : Response) (evs : list Response) :
  Forall (fun x => timestamp x = timestamp e) evs ->
  Graphical.add_all Graphical.NewGraphicalReporter (Some <$> e :: evs)
    = Ok (Graphical.mkGraphicalReporter (stored [e])).
Proof.
  intros Hall.
  change Graphical.NewGraphicalReporter with (Graphical.mkGraphicalReporter (stored [])).
  rewrite (add_all_step _ e evs _ (Add_stored_nil e)).
  induction Hall as [|x evs Hx _ IH]; [reflexivity|].
  rewrite (add_all_step _ x evs (Graphical.mkGraphicalReporter (stored [e]))); [exact IH|].
  rewrite Add_chronological by (repeat constructor).
  cbn [last fmap option_fmap option_map]. rewrite decide_True by congruence.
  reflexivity.
Qed.

Lemma Graphical_equal_timestamps_keep_first_witness :
  let ev c := mkResponse c 7 0 0 0 None in
  Forall (fun x => timestamp x = timestamp (ev 200)) [ev 404; ev 500]
  /\ Graphical.add_all Graphical.NewGraphicalReporter (Some <$> [ev 200; ev 404; ev 500])
     = Ok (Graphical.mkGraphicalReporter (stored [ev 200])).
Proof.
  intros ev.
  assert (Hall : Forall (fun x => timestamp x = timestamp (ev 200)) [ev 404; ev 500])
    by (repeat constructor).
  split; [exact Hall|].
  exact (Graphical_equal_timestamps_keep_first (ev 200) [ev 404; ev 500] Hall).
Defined.
